(** * Seamline: the saved places and collections data layer

    A shallow embedding of the client-side storage modules of the Seamline
    web front end: [src/utils/storage.js] (accounts kept in the browser's
    local storage) and its sibling that authenticates against the hosted
    auth service, together with the [escapeHtml] sanitizer.

    Modelling conventions.
    - JavaScript values that travel through [JSON.parse]/[JSON.stringify]
      are values of the inductive type [json]; numbers are integers (the
      place ids of the database), so [NaN], infinities and fractions do not
      occur.
    - A JavaScript object is the ordered list of its own enumerable
      properties; a property that is absent reads as [None] ([undefined]).
      The engine's special ordering of integer-like keys is outside the
      model.
    - The collections of an entry are looked up by an id that the caller
      chooses, so a lookup that finds no own property goes on to the
      members that every object inherits from [Object.prototype]
      ([obj_lookup]).  The modules write a [placeIds] property on the
      member they find; the [world] records these properties, and every
      read of [placeIds] that finds no own property sees the one on
      [Object.prototype].
    - The store object is keyed by the email of an account.  Reading it
      under the name of an inherited member finds a value without items
      and collections, which normalizes to the empty entry just as the
      absent property does; writing it under [__proto__] would set a
      prototype instead of a property, and an email is never that name.
    - Strings are byte strings; only ASCII white space is trimmed.
    - The functions of the modules run in a state-and-exception monad over
      the browser [world]: local storage, the events dispatched on
      [window], the requests sent to the hosted auth service, and the
      [placeIds] properties put on the built-in objects of the page. *)

From Stdlib Require Import ZArith Lia Ascii.
From stdpp Require Import base option strings list gmap pretty.

Open Scope string_scope.
Open Scope list_scope.
Set Warnings "-register-all".

(** ** JSON values and the JavaScript primitives the modules use *)

Module JS.

Inductive json : Type :=
| JNull
| JBool (b : bool)
| JNum (n : Z)
| JStr (s : string)
| JArr (elems : list json)
| JObj (props : list (string * json)).

(** Own properties of an object, in property order. *)
Abbreviation obj := (list (string * json)).

(** Arguments that callers pass for a place id: any primitive. *)
Inductive jsval : Type :=
| VUndefined
| VNull
| VBool (b : bool)
| VNum (n : Z)
| VStr (s : string).

(** [String(v)] on a primitive. *)
Definition String_ (v : jsval) : string :=
  match v with
  | VUndefined => "undefined"
  | VNull => "null"
  | VBool true => "true"
  | VBool false => "false"
  | VNum n => pretty n
  | VStr s => s
  end.

(** [String(v)] on a parsed JSON value; an array is joined with commas,
    [null] elements printing as the empty string. *)
Fixpoint to_string (v : json) : string :=
  match v with
  | JNull => "null"
  | JBool true => "true"
  | JBool false => "false"
  | JNum n => pretty n
  | JStr s => s
  | JArr l =>
      String.concat ","
        (List.map (fun e => match e with JNull => "" | _ => to_string e end) l)
  | JObj _ => "[object Object]"
  end.

(** [ToPropertyKey] of a JSON value used as an object key. *)
Definition to_property_key (v : json) : string := to_string v.

(** [!!v] *)
Definition truthy (v : json) : bool :=
  match v with
  | JNull => false
  | JBool b => b
  | JNum n => negb (n =? 0)%Z
  | JStr s => negb (String.eqb s "")
  | JArr _ | JObj _ => true
  end.

Definition truthy_opt (v : option json) : bool :=
  match v with Some v => truthy v | None => false end.

(** [a === b] and SameValueZero agree on parsed JSON: primitives compare by
    value, while two arrays or objects that come out of [JSON.parse] are
    distinct references and never identical. *)
Definition same_value (a b : json) : bool :=
  match a, b with
  | JNull, JNull => true
  | JBool x, JBool y => eqb x y
  | JNum x, JNum y => (x =? y)%Z
  | JStr x, JStr y => String.eqb x y
  | _, _ => false
  end.

(** [o[k]] as far as the own properties of [o] go. *)
Fixpoint obj_get {A} (o : list (string * A)) (k : string) : option A :=
  match o with
  | [] => None
  | (k', v) :: o' => if String.eqb k' k then Some v else obj_get o' k
  end.

(** [o[k] = v]: an existing property keeps its place, a new one goes last. *)
Fixpoint obj_set {A} (o : list (string * A)) (k : string) (v : A)
  : list (string * A) :=
  match o with
  | [] => [(k, v)]
  | (k', v') :: o' =>
      if String.eqb k' k then (k, v) :: o' else (k', v') :: obj_set o' k v
  end.

(** The names of the members of [Object.prototype], which every plain
    object inherits: eleven functions ([constructor] is [Object] itself)
    and the accessor [__proto__], which reads as [Object.prototype]. *)
Definition Object_prototype : list string :=
  ["constructor"; "__defineGetter__"; "__defineSetter__"; "hasOwnProperty";
   "__lookupGetter__"; "__lookupSetter__"; "isPrototypeOf";
   "propertyIsEnumerable"; "toString"; "valueOf"; "__proto__";
   "toLocaleString"].

Definition inherited (k : string) : bool :=
  existsb (String.eqb k) Object_prototype.

(** What [o[k]] finds on a plain object: the value of an own property, or
    else the member of that name inherited from [Object.prototype]. *)
Inductive found (A : Type) : Type :=
| Own (v : A)
| Builtin (name : string).
Arguments Own {A} v.
Arguments Builtin {A} name.

(** [o[k]] on a plain object, along the prototype chain; [None] is
    [undefined].  Whatever it finds is truthy when the own values are
    objects: the inherited members are functions and an object. *)
Definition obj_lookup {A} (o : list (string * A)) (k : string)
  : option (found A) :=
  match obj_get o k with
  | Some v => Some (Own v)
  | None => if inherited k then Some (Builtin k) else None
  end.

(** [delete o[k]] *)
Definition obj_delete {A} (o : list (string * A)) (k : string)
  : list (string * A) :=
  List.filter (fun kv => negb (String.eqb (fst kv) k)) o.

(** [Object.values(o)] *)
Definition Object_values {A} (o : list (string * A)) : list A := List.map snd o.

(** [Object.fromEntries(es)] *)
Definition Object_fromEntries {A} (es : list (string * A)) : list (string * A) :=
  fold_left (fun o kv => obj_set o (fst kv) (snd kv)) es [].

(** [Object.entries(a)] on an array: index keys "0", "1", ... *)
Definition array_entries (l : list json) : list (string * json) :=
  imap (fun i x => (pretty i, x)) l.

(** [v[k]] on a parsed value other than [null], for the property names
    that the modules read off stored data ([id], [name], [placeIds],
    [items], [collections]): no built-in prototype defines one of them, so
    the value has it as an own property, which only an object can, or
    inherits what the page has put on [Object.prototype], which the
    modules do for [placeIds] alone (see [inheritedPlaceIds] below). *)
Definition get_prop (v : json) (k : string) : option json :=
  match v with
  | JObj o => obj_get o k
  | _ => None
  end.

(** [new Set(l)] then [Array.from]: first occurrences, in order. *)
Definition set_add (s : list json) (x : json) : list json :=
  if existsb (same_value x) s then s else s ++ [x].

Definition new_Set (l : list json) : list json := fold_left set_add l [].

(** [l.includes(x)] *)
Definition includes (l : list json) (x : json) : bool :=
  existsb (fun y => same_value y x) l.

(** [l.filter((id) => id !== x)] *)
Definition filter_ne (x : json) (l : list json) : list json :=
  List.filter (fun y => negb (same_value y x)) l.

Definition is_space (c : Ascii.ascii) : bool :=
  let n := Ascii.nat_of_ascii c in
  (Nat.leb 9 n && Nat.leb n 13) || Nat.eqb n 32.

Fixpoint trim_start (s : string) : string :=
  match s with
  | String c s' => if is_space c then trim_start s' else s
  | EmptyString => EmptyString
  end.

Fixpoint trim_end (s : string) : string :=
  match s with
  | String c s' =>
      match trim_end s' with
      | EmptyString => if is_space c then EmptyString else String c EmptyString
      | t => String c t
      end
  | EmptyString => EmptyString
  end.

(** [s.trim()] *)
Definition trim (s : string) : string := trim_end (trim_start s).

(** [s.replace(/c/g, r)] for a one-character pattern. *)
Fixpoint replace_all (c : Ascii.ascii) (r : string) (s : string) : string :=
  match s with
  | EmptyString => EmptyString
  | String d s' =>
      if Ascii.eqb d c then r +:+ replace_all c r s'
      else String d (replace_all c r s')
  end.

End JS.

Export JS.

(** ** The browser world and the monad the modules run in *)

(** What a [throw] carries: an [Error] with its message, or the engine's
    [TypeError] (a property read on [null], a missing method). *)
Inductive exn : Type :=
| Error (msg : string)
| TypeError.

Inductive outcome (A : Type) : Type :=
| Ok (a : A)
| Throw (e : exn).
Arguments Ok {A} a.
Arguments Throw {A} e.

Definition obind {A B} (c : outcome A) (k : A -> outcome B) : outcome B :=
  match c with
  | Ok a => k a
  | Throw e => Throw e
  end.

(** The user objects handed out by [getCurrentUser]; the local module
    builds them without an [id]. *)
Record user : Type := User {
  user_id : option string;
  user_name : string;
  user_email : string;
}.

(** A value held by [localStorage]: a text that [JSON.parse] rejects (or the
    empty string, which [parseJSON] treats like a missing key), or the text
    of a JSON object, identified with the object it parses to.  The saved
    slot is only ever written by [setSavedStore], with a stringified store
    object, so other parseable shapes are not part of the state space. *)
Inductive stored : Type :=
| Raw (text : string)
| Doc (store : list (string * json)).

Inductive event : Type :=
| UserChange (detail : option user)
| SavedChange (email : string).

(** Calls on the hosted auth client. *)
Inductive request : Type :=
| AuthGetUser
| AuthSignUp (email password display_name : string)
| AuthSignIn (email password : string)
| AuthSignOut.

(** The page: local storage, the events dispatched on [window], the calls
    made on the auth client, and the [placeIds] properties that the page
    has put on members of [Object.prototype], by the name of the member;
    the one under [__proto__] sits on [Object.prototype] itself. *)
Record world : Type := World {
  localStorage : gmap string stored;
  dispatched : list event;
  requests : list request;
  builtins : gmap string (list json);
}.

Definition M (A : Type) : Type := world -> outcome A * world.

Definition ret {A} (a : A) : M A := fun w => (Ok a, w).

Definition throw {A} (e : exn) : M A := fun w => (Throw e, w).

Definition bind {A B} (c : M A) (k : A -> M B) : M B :=
  fun w =>
    match c w with
    | (Ok a, w') => k a w'
    | (Throw e, w') => (Throw e, w')
    end.

Definition lift {A} (c : outcome A) : M A := fun w => (c, w).

Notation "'let*' x ':=' c1 'in' c2" := (bind c1 (fun x => c2))
  (at level 10, x name, c1 at level 100, c2 at level 200).
Notation "'let?' x ':=' c1 'in' c2" := (obind c1 (fun x => c2))
  (at level 10, x name, c1 at level 100, c2 at level 200).

(** [localStorage.getItem(key)] *)
Definition getItem (key : string) : M (option stored) :=
  fun w => (Ok (localStorage w !! key), w).

(** [localStorage.setItem(key, value)] *)
Definition setItem (key : string) (value : stored) : M unit :=
  fun w =>
    (Ok tt, {| localStorage := <[key := value]> (localStorage w);
               dispatched := dispatched w;
               requests := requests w;
               builtins := builtins w |}).

(** [window.dispatchEvent(e)] *)
Definition dispatchEvent (e : event) : M unit :=
  fun w =>
    (Ok tt, {| localStorage := localStorage w;
               dispatched := dispatched w ++ [e];
               requests := requests w;
               builtins := builtins w |}).

(** A call on [supabase.auth]. *)
Definition send (r : request) : M unit :=
  fun w =>
    (Ok tt, {| localStorage := localStorage w;
               dispatched := dispatched w;
               requests := requests w ++ [r];
               builtins := builtins w |}).

(** [x.placeIds] on a value [x] that has no such own property, other than
    [null]: the property is looked for on the prototypes of [x], which end
    in [Object.prototype]. *)
Definition inheritedPlaceIds : M (option (list json)) :=
  fun w => (Ok (builtins w !! "__proto__"), w).

(** [m.placeIds] on the member [m] of [Object.prototype] of the given
    name: its own property, or else the one it inherits. *)
Definition getPlaceIds (name : string) : M (option (list json)) :=
  fun w =>
    (Ok (match builtins w !! name with
         | Some ids => Some ids
         | None => builtins w !! "__proto__"
         end), w).

(** [m.placeIds = ids] on that member. *)
Definition setPlaceIds (name : string) (ids : list json) : M unit :=
  fun w =>
    (Ok tt, {| localStorage := localStorage w;
               dispatched := dispatched w;
               requests := requests w;
               builtins := <[name := ids]> (builtins w) |}).

(** ** The data a user saves *)

(** A normalized collection [{ id, name, placeIds }]. *)
Record collection : Type := Collection {
  col_id : json;
  col_name : json;
  placeIds : list json;
}.

(** A normalized entry [{ items, collections }]. *)
Record saved_data : Type := SavedData {
  items : list json;
  collections : list (string * collection);
}.

(** What [JSON.stringify] writes for them. *)
Definition collection_to_json (c : collection) : json :=
  JObj [("id", col_id c); ("name", col_name c); ("placeIds", JArr (placeIds c))].

Definition data_to_json (d : saved_data) : json :=
  JObj [("items", JArr (items d));
        ("collections",
         JObj (List.map (fun kc => (fst kc, collection_to_json (snd kc)))
                 (collections d)))].

(** The readings of the clock and of the random source that
    [generateCollectionId] consumes, already in base 36:
    [Date.now().toString(36)] and [Math.random().toString(36).slice(2, 7)]. *)
Record entropy : Type := Entropy {
  now36 : string;
  random36 : string;
}.

(** ** [src/utils/storage.js]: accounts and saved places in local storage *)

Module Local.

Definition SAVED_KEY : string := "seamline_saved_places".
Definition COLLECTION_PREFIX : string := "col".

Definition parseJSON (raw : option stored) (fallback : list (string * json))
  : list (string * json) :=
  match raw with
  | Some (Doc v) => v
  | Some (Raw _) | None => fallback
  end.

Definition emitSavedChange (email : string) : M unit :=
  dispatchEvent (SavedChange email).

Definition getSavedStore : M (list (string * json)) :=
  let* raw := getItem SAVED_KEY in
  ret (parseJSON raw []).

Definition setSavedStore (store : list (string * json)) : M unit :=
  setItem SAVED_KEY (Doc store).

(** The body of the [map] callback of [normalizeCollections]; reading
    [col.id] throws when [col] is [null].  [onPrototype] is the [placeIds]
    property of [Object.prototype], if the page has put one there: it is
    what [col.placeIds] reads when [col] has no such property of its own. *)
Definition normalizeCollection (onPrototype : option (list json))
    (id : string) (col : json) : outcome (string * collection) :=
  match col with
  | JNull => Throw TypeError
  | _ =>
      let normalized :=
        {| col_id :=
             match get_prop col "id" with
             | Some v => if truthy v then v else JStr id
             | None => JStr id
             end;
           col_name :=
             match get_prop col "name" with
             | Some v => if truthy v then v else JStr "Collection"
             | None => JStr "Collection"
             end;
           placeIds :=
             match get_prop col "placeIds" with
             | Some (JArr l) => l
             | Some _ => []
             | None => default [] onPrototype
             end |} in
      Ok (to_property_key (col_id normalized), normalized)
  end.

Fixpoint map_entries (onPrototype : option (list json))
    (es : list (string * json)) : outcome (list (string * collection)) :=
  match es with
  | [] => Ok []
  | (id, col) :: es' =>
      let? e := normalizeCollection onPrototype id col in
      let? rest := map_entries onPrototype es' in
      Ok (e :: rest)
  end.

Definition normalizeCollections (onPrototype : option (list json))
    (collections : option json) : outcome (list (string * collection)) :=
  match collections with
  | Some (JObj o) =>
      let? es := map_entries onPrototype o in Ok (Object_fromEntries es)
  | Some (JArr l) =>
      let? es := map_entries onPrototype (array_entries l) in
      Ok (Object_fromEntries es)
  | _ => Ok []
  end.

Definition normalizeEntry (onPrototype : option (list json))
    (entry : option json) : outcome saved_data :=
  match entry with
  | None => Ok {| items := []; collections := [] |}
  | Some e =>
      if negb (truthy e) then Ok {| items := []; collections := [] |}
      else
        match e with
        | JArr l => Ok {| items := l; collections := [] |}
        | _ =>
            let? cols :=
              normalizeCollections onPrototype (get_prop e "collections") in
            Ok {| items :=
                    match get_prop e "items" with
                    | Some (JArr l) => l
                    | _ => []
                    end;
                  collections := cols |}
        end
  end.

Definition getUserSavedData (user : option user) : M saved_data :=
  match user with
  | None => ret {| items := []; collections := [] |}
  | Some u =>
      let* store := getSavedStore in
      let* onPrototype := inheritedPlaceIds in
      lift (normalizeEntry onPrototype (obj_get store (user_email u)))
  end.

Definition setUserSavedData (user : option user) (data : saved_data) : M unit :=
  match user with
  | None => ret tt
  | Some u =>
      let* store := getSavedStore in
      let* _ := setSavedStore (obj_set store (user_email u) (data_to_json data)) in
      emitSavedChange (user_email u)
  end.

Definition generateCollectionId (e : entropy) : string :=
  COLLECTION_PREFIX +:+ "-" +:+ now36 e +:+ "-" +:+ random36 e.

Definition getSavedPlaceIds (user : option user) : M (list json) :=
  match user with
  | None => ret []
  | Some _ =>
      let* data := getUserSavedData user in
      ret (items data)
  end.

Definition isPlaceSaved (user : option user) (placeId : jsval) : M bool :=
  match user with
  | None => ret false
  | Some _ =>
      let* ids := getSavedPlaceIds user in
      ret (includes ids (JStr (String_ placeId)))
  end.

Definition savePlace (user : option user) (placeId : jsval) : M (list json) :=
  match user with
  | None => throw (Error "Login required")
  | Some _ =>
      let* data := getUserSavedData user in
      let ids := set_add (new_Set (items data)) (JStr (String_ placeId)) in
      let data := {| items := ids; collections := collections data |} in
      let* _ := setUserSavedData user data in
      ret (items data)
  end.

Definition removeSavedPlace (user : option user) (placeId : jsval)
  : M (list json) :=
  match user with
  | None => throw (Error "Login required")
  | Some _ =>
      let targetId := JStr (String_ placeId) in
      let* data := getUserSavedData user in
      let data :=
        {| items := filter_ne targetId (items data);
           collections :=
             List.map
               (fun kc =>
                  (fst kc,
                   {| col_id := col_id (snd kc);
                      col_name := col_name (snd kc);
                      placeIds := filter_ne targetId (placeIds (snd kc)) |}))
               (collections data) |} in
      let* _ := setUserSavedData user data in
      ret (items data)
  end.

Definition getCollections (user : option user) : M (list collection) :=
  match user with
  | None => ret []
  | Some _ =>
      let* data := getUserSavedData user in
      ret (Object_values (collections data))
  end.

Definition createCollection (e : entropy) (user : option user) (name : jsval)
  : M collection :=
  match user with
  | None => throw (Error "Login required")
  | Some _ =>
      match name with
      | VUndefined | VNull => throw (Error "Collection name is required.")
      | VBool _ | VNum _ => throw TypeError
      | VStr s =>
          let trimmed := trim s in
          if String.eqb trimmed "" then
            throw (Error "Collection name is required.")
          else
            let* data := getUserSavedData user in
            let id := generateCollectionId e in
            let created :=
              {| col_id := JStr id; col_name := JStr trimmed; placeIds := [] |} in
            let data :=
              {| items := items data;
                 collections := obj_set (collections data) id created |} in
            let* _ := setUserSavedData user data in
            ret created
      end
  end.

Definition deleteCollection (user : option user) (collectionId : jsval)
  : M unit :=
  match user with
  | None => throw (Error "Login required")
  | Some _ =>
      let* data := getUserSavedData user in
      let data :=
        {| items := items data;
           collections :=
             obj_delete (collections data) (String_ collectionId) |} in
      setUserSavedData user data
  end.

(** [data.collections[collectionId]] is looked up along the prototype
    chain.  When it finds a member of [Object.prototype], the new place ids
    become a property of that member; the assignment
    [data.collections[collectionId] = collection] then stores a function,
    which [JSON.stringify] leaves out, or, for [__proto__], sets the
    prototype to what it already is: the collections are written as they
    were read. *)
Definition addPlaceToCollection (user : option user)
    (collectionId placeId : jsval) : M (found collection) :=
  match user with
  | None => throw (Error "Login required")
  | Some _ =>
      let* data := getUserSavedData user in
      match obj_lookup (collections data) (String_ collectionId) with
      | None => throw (Error "Collection not found.")
      | Some collection =>
          let items' :=
            if includes (items data) (JStr (String_ placeId)) then items data
            else items data ++ [JStr (String_ placeId)] in
          match collection with
          | Own collection =>
              let ids :=
                set_add (new_Set (placeIds collection))
                  (JStr (String_ placeId)) in
              let collection :=
                {| col_id := col_id collection;
                   col_name := col_name collection;
                   placeIds := ids |} in
              let data :=
                {| items := items';
                   collections :=
                     obj_set (collections data) (String_ collectionId)
                       collection |} in
              let* _ := setUserSavedData user data in
              ret (Own collection)
          | Builtin name =>
              let* old := getPlaceIds name in
              let ids :=
                set_add (new_Set (default [] old)) (JStr (String_ placeId)) in
              let* _ := setPlaceIds name ids in
              let data :=
                {| items := items'; collections := collections data |} in
              let* _ := setUserSavedData user data in
              ret (Builtin name)
          end
      end
  end.

(** The same lookup; a member of [Object.prototype] that it finds gets the
    filtered place ids as a property, and the entry is written as read. *)
Definition removePlaceFromCollection (user : option user)
    (collectionId placeId : jsval) : M unit :=
  match user with
  | None => throw (Error "Login required")
  | Some _ =>
      let* data := getUserSavedData user in
      match obj_lookup (collections data) (String_ collectionId) with
      | None => ret tt
      | Some (Own collection) =>
          let collection :=
            {| col_id := col_id collection;
               col_name := col_name collection;
               placeIds :=
                 filter_ne (JStr (String_ placeId)) (placeIds collection) |} in
          let data :=
            {| items := items data;
               collections :=
                 obj_set (collections data) (String_ collectionId) collection |} in
          setUserSavedData user data
      | Some (Builtin name) =>
          let* old := getPlaceIds name in
          let* _ :=
            setPlaceIds name
              (filter_ne (JStr (String_ placeId)) (default [] old)) in
          setUserSavedData user data
      end
  end.

(** [data.collections[collectionId]?.placeIds ?? []] *)
Definition getCollectionPlaceIds (user : option user) (collectionId : jsval)
  : M (list json) :=
  match user with
  | None => ret []
  | Some _ =>
      let* data := getUserSavedData user in
      match obj_lookup (collections data) (String_ collectionId) with
      | Some (Own c) => ret (placeIds c)
      | Some (Builtin name) =>
          let* ids := getPlaceIds name in
          ret (default [] ids)
      | None => ret []
      end
  end.

Definition isPlaceInCollection (user : option user)
    (collectionId placeId : jsval) : M bool :=
  match user with
  | None => ret false
  | Some _ =>
      let* ids := getCollectionPlaceIds user collectionId in
      ret (includes ids (JStr (String_ placeId)))
  end.

End Local.

(** ** The storage module backed by the hosted auth service

    Accounts live in the auth service; the saved places and collections are
    read and written exactly as in [Local]. *)

Module Remote.

Definition SAVED_KEY : string := "seamline_saved_places".
Definition COLLECTION_PREFIX : string := "col".

Definition parseJSON (raw : option stored) (fallback : list (string * json))
  : list (string * json) :=
  match raw with
  | Some (Doc v) => v
  | Some (Raw _) | None => fallback
  end.

Definition emitSavedChange (email : string) : M unit :=
  dispatchEvent (SavedChange email).

(** The synchronous part of the account functions: each validates its
    arguments and calls the hosted auth client.  The promise callbacks,
    which run once the service has answered, are not modelled. *)
Definition signupUser (name email password : string) : M unit :=
  if String.eqb name "" || String.eqb email "" || String.eqb password "" then
    throw (Error "All fields are required.")
  else send (AuthSignUp email password name).

Definition loginUser (email password : string) : M unit :=
  if String.eqb email "" || String.eqb password "" then
    throw (Error "Email and password are required.")
  else send (AuthSignIn email password).

Definition logoutUser : M unit := send AuthSignOut.

Definition getSavedStore : M (list (string * json)) :=
  let* raw := getItem SAVED_KEY in
  ret (parseJSON raw []).

Definition setSavedStore (store : list (string * json)) : M unit :=
  setItem SAVED_KEY (Doc store).

(** The body of the [map] callback of [normalizeCollections]; reading
    [col.id] throws when [col] is [null].  [onPrototype] is the [placeIds]
    property of [Object.prototype], if the page has put one there: it is
    what [col.placeIds] reads when [col] has no such property of its own. *)
Definition normalizeCollection (onPrototype : option (list json))
    (id : string) (col : json) : outcome (string * collection) :=
  match col with
  | JNull => Throw TypeError
  | _ =>
      let normalized :=
        {| col_id :=
             match get_prop col "id" with
             | Some v => if truthy v then v else JStr id
             | None => JStr id
             end;
           col_name :=
             match get_prop col "name" with
             | Some v => if truthy v then v else JStr "Collection"
             | None => JStr "Collection"
             end;
           placeIds :=
             match get_prop col "placeIds" with
             | Some (JArr l) => l
             | Some _ => []
             | None => default [] onPrototype
             end |} in
      Ok (to_property_key (col_id normalized), normalized)
  end.

Fixpoint map_entries (onPrototype : option (list json))
    (es : list (string * json)) : outcome (list (string * collection)) :=
  match es with
  | [] => Ok []
  | (id, col) :: es' =>
      let? e := normalizeCollection onPrototype id col in
      let? rest := map_entries onPrototype es' in
      Ok (e :: rest)
  end.

Definition normalizeCollections (onPrototype : option (list json))
    (collections : option json) : outcome (list (string * collection)) :=
  match collections with
  | Some (JObj o) =>
      let? es := map_entries onPrototype o in Ok (Object_fromEntries es)
  | Some (JArr l) =>
      let? es := map_entries onPrototype (array_entries l) in
      Ok (Object_fromEntries es)
  | _ => Ok []
  end.

Definition normalizeEntry (onPrototype : option (list json))
    (entry : option json) : outcome saved_data :=
  match entry with
  | None => Ok {| items := []; collections := [] |}
  | Some e =>
      if negb (truthy e) then Ok {| items := []; collections := [] |}
      else
        match e with
        | JArr l => Ok {| items := l; collections := [] |}
        | _ =>
            let? cols :=
              normalizeCollections onPrototype (get_prop e "collections") in
            Ok {| items :=
                    match get_prop e "items" with
                    | Some (JArr l) => l
                    | _ => []
                    end;
                  collections := cols |}
        end
  end.

Definition getUserSavedData (user : option user) : M saved_data :=
  match user with
  | None => ret {| items := []; collections := [] |}
  | Some u =>
      let* store := getSavedStore in
      let* onPrototype := inheritedPlaceIds in
      lift (normalizeEntry onPrototype (obj_get store (user_email u)))
  end.

Definition setUserSavedData (user : option user) (data : saved_data) : M unit :=
  match user with
  | None => ret tt
  | Some u =>
      let* store := getSavedStore in
      let* _ := setSavedStore (obj_set store (user_email u) (data_to_json data)) in
      emitSavedChange (user_email u)
  end.

Definition generateCollectionId (e : entropy) : string :=
  COLLECTION_PREFIX +:+ "-" +:+ now36 e +:+ "-" +:+ random36 e.

Definition getSavedPlaceIds (user : option user) : M (list json) :=
  match user with
  | None => ret []
  | Some _ =>
      let* data := getUserSavedData user in
      ret (items data)
  end.

Definition isPlaceSaved (user : option user) (placeId : jsval) : M bool :=
  match user with
  | None => ret false
  | Some _ =>
      let* ids := getSavedPlaceIds user in
      ret (includes ids (JStr (String_ placeId)))
  end.

Definition savePlace (user : option user) (placeId : jsval) : M (list json) :=
  match user with
  | None => throw (Error "Login required")
  | Some _ =>
      let* data := getUserSavedData user in
      let ids := set_add (new_Set (items data)) (JStr (String_ placeId)) in
      let data := {| items := ids; collections := collections data |} in
      let* _ := setUserSavedData user data in
      ret (items data)
  end.

Definition removeSavedPlace (user : option user) (placeId : jsval)
  : M (list json) :=
  match user with
  | None => throw (Error "Login required")
  | Some _ =>
      let targetId := JStr (String_ placeId) in
      let* data := getUserSavedData user in
      let data :=
        {| items := filter_ne targetId (items data);
           collections :=
             List.map
               (fun kc =>
                  (fst kc,
                   {| col_id := col_id (snd kc);
                      col_name := col_name (snd kc);
                      placeIds := filter_ne targetId (placeIds (snd kc)) |}))
               (collections data) |} in
      let* _ := setUserSavedData user data in
      ret (items data)
  end.

Definition getCollections (user : option user) : M (list collection) :=
  match user with
  | None => ret []
  | Some _ =>
      let* data := getUserSavedData user in
      ret (Object_values (collections data))
  end.

Definition createCollection (e : entropy) (user : option user) (name : jsval)
  : M collection :=
  match user with
  | None => throw (Error "Login required")
  | Some _ =>
      match name with
      | VUndefined | VNull => throw (Error "Collection name is required.")
      | VBool _ | VNum _ => throw TypeError
      | VStr s =>
          let trimmed := trim s in
          if String.eqb trimmed "" then
            throw (Error "Collection name is required.")
          else
            let* data := getUserSavedData user in
            let id := generateCollectionId e in
            let created :=
              {| col_id := JStr id; col_name := JStr trimmed; placeIds := [] |} in
            let data :=
              {| items := items data;
                 collections := obj_set (collections data) id created |} in
            let* _ := setUserSavedData user data in
            ret created
      end
  end.

Definition deleteCollection (user : option user) (collectionId : jsval)
  : M unit :=
  match user with
  | None => throw (Error "Login required")
  | Some _ =>
      let* data := getUserSavedData user in
      let data :=
        {| items := items data;
           collections :=
             obj_delete (collections data) (String_ collectionId) |} in
      setUserSavedData user data
  end.

(** [data.collections[collectionId]] is looked up along the prototype
    chain.  When it finds a member of [Object.prototype], the new place ids
    become a property of that member; the assignment
    [data.collections[collectionId] = collection] then stores a function,
    which [JSON.stringify] leaves out, or, for [__proto__], sets the
    prototype to what it already is: the collections are written as they
    were read. *)
Definition addPlaceToCollection (user : option user)
    (collectionId placeId : jsval) : M (found collection) :=
  match user with
  | None => throw (Error "Login required")
  | Some _ =>
      let* data := getUserSavedData user in
      match obj_lookup (collections data) (String_ collectionId) with
      | None => throw (Error "Collection not found.")
      | Some collection =>
          let items' :=
            if includes (items data) (JStr (String_ placeId)) then items data
            else items data ++ [JStr (String_ placeId)] in
          match collection with
          | Own collection =>
              let ids :=
                set_add (new_Set (placeIds collection))
                  (JStr (String_ placeId)) in
              let collection :=
                {| col_id := col_id collection;
                   col_name := col_name collection;
                   placeIds := ids |} in
              let data :=
                {| items := items';
                   collections :=
                     obj_set (collections data) (String_ collectionId)
                       collection |} in
              let* _ := setUserSavedData user data in
              ret (Own collection)
          | Builtin name =>
              let* old := getPlaceIds name in
              let ids :=
                set_add (new_Set (default [] old)) (JStr (String_ placeId)) in
              let* _ := setPlaceIds name ids in
              let data :=
                {| items := items'; collections := collections data |} in
              let* _ := setUserSavedData user data in
              ret (Builtin name)
          end
      end
  end.

(** The same lookup; a member of [Object.prototype] that it finds gets the
    filtered place ids as a property, and the entry is written as read. *)
Definition removePlaceFromCollection (user : option user)
    (collectionId placeId : jsval) : M unit :=
  match user with
  | None => throw (Error "Login required")
  | Some _ =>
      let* data := getUserSavedData user in
      match obj_lookup (collections data) (String_ collectionId) with
      | None => ret tt
      | Some (Own collection) =>
          let collection :=
            {| col_id := col_id collection;
               col_name := col_name collection;
               placeIds :=
                 filter_ne (JStr (String_ placeId)) (placeIds collection) |} in
          let data :=
            {| items := items data;
               collections :=
                 obj_set (collections data) (String_ collectionId) collection |} in
          setUserSavedData user data
      | Some (Builtin name) =>
          let* old := getPlaceIds name in
          let* _ :=
            setPlaceIds name
              (filter_ne (JStr (String_ placeId)) (default [] old)) in
          setUserSavedData user data
      end
  end.

(** [data.collections[collectionId]?.placeIds ?? []] *)
Definition getCollectionPlaceIds (user : option user) (collectionId : jsval)
  : M (list json) :=
  match user with
  | None => ret []
  | Some _ =>
      let* data := getUserSavedData user in
      match obj_lookup (collections data) (String_ collectionId) with
      | Some (Own c) => ret (placeIds c)
      | Some (Builtin name) =>
          let* ids := getPlaceIds name in
          ret (default [] ids)
      | None => ret []
      end
  end.

Definition isPlaceInCollection (user : option user)
    (collectionId placeId : jsval) : M bool :=
  match user with
  | None => ret false
  | Some _ =>
      let* ids := getCollectionPlaceIds user collectionId in
      ret (includes ids (JStr (String_ placeId)))
  end.

End Remote.

(** ** [escapeHtml] of the sanitizer module *)

Module Sanitizer.

(** The double quote character. *)
Definition quot : Ascii.ascii := Ascii.ascii_of_nat 34.

Definition escapeHtml (unsafe : jsval) : string :=
  match unsafe with
  | VNull | VUndefined => ""
  | _ =>
      replace_all "/"%char "&#x2F;"
        (replace_all "'"%char "&#039;"
           (replace_all quot "&quot;"
              (replace_all ">"%char "&gt;"
                 (replace_all "<"%char "&lt;"
                    (replace_all "&"%char "&amp;" (String_ unsafe))))))
  end.

End Sanitizer.

(** ** The other functions of the sanitizer module

    [console.warn] is rendered as a list of warnings returned beside the
    result, and a DOM element as the record of what the function sets on
    it.  [setTextContent] and [createSafeElement], which only hand a text
    to the DOM, and [buildSafeHtml], which compiles a caller-supplied key
    into a regular expression, are not modelled. *)

Module Sanitizing.

(** [!!v] on a primitive. *)
Definition truthy_val (v : jsval) : bool :=
  match v with
  | VUndefined | VNull => false
  | VBool b => b
  | VNum n => negb (n =? 0)%Z
  | VStr s => negb (String.eqb s "")
  end.

(** What [console.warn] is called with. *)
Inductive warning : Type :=
| BlockedProtocol (shown : string)
| BlockedImage.

(** Letters as the [i] flag compares them: upper case ASCII letters are
    folded to lower case, every other character stands for itself. *)
Definition fold_case (c : ascii) : ascii :=
  let n := nat_of_ascii c in
  if Nat.leb 65 n && Nat.leb n 90 then ascii_of_nat (n + 32) else c.

(** [/^p/i.test(s)] for a pattern [p] of lower case letters and
    punctuation. *)
Fixpoint starts_with_ci (p s : string) : bool :=
  match p, s with
  | EmptyString, _ => true
  | String a p', String b s' => Ascii.eqb a (fold_case b) && starts_with_ci p' s'
  | String _ _, EmptyString => false
  end.

(** [/p/i.test(s)]: the pattern occurs somewhere in [s]. *)
Fixpoint contains_ci (p s : string) : bool :=
  starts_with_ci p s ||
  match s with
  | EmptyString => false
  | String _ s' => contains_ci p s'
  end.

(** [/^(javascript|data|vbscript|file|about):/i] *)
Definition dangerousProtocols (s : string) : bool :=
  existsb (fun p => starts_with_ci (p +:+ ":") s)
    ["javascript"; "data"; "vbscript"; "file"; "about"].

(** [/^(https?|mailto|tel|sms):/i] *)
Definition safeProtocols (s : string) : bool :=
  existsb (fun p => starts_with_ci (p +:+ ":") s)
    ["http"; "https"; "mailto"; "tel"; "sms"].

Definition sanitizeUrl (url : jsval) : string * list warning :=
  if negb (truthy_val url) then ("", [])
  else
    let urlStr := trim (String_ url) in
    if dangerousProtocols urlStr then
      ("", [BlockedProtocol (String.substring 0 50 urlStr)])
    else if safeProtocols urlStr then (urlStr, [])
    else ("https://" +:+ urlStr, []).

(** A [>] occurs in the string. *)
Fixpoint has_gt (s : string) : bool :=
  match s with
  | EmptyString => false
  | String c s' => Ascii.eqb c ">" || has_gt s'
  end.

(** [/<[^>]*>/.test(s)]: some [<] has a [>] after it. *)
Fixpoint has_tag (s : string) : bool :=
  match s with
  | EmptyString => false
  | String c s' => (Ascii.eqb c "<" && has_gt s') || has_tag s'
  end.

(** [s.replace(/<[^>]*>/g, '')].  A match starts at a [<] that has a [>]
    after it and ends at the first such [>]; [inside_tag] runs through the
    match.  A [<] with no [>] after it starts no match, and then neither
    does any later one. *)
Fixpoint remove_tags (s : string) : string :=
  match s with
  | EmptyString => EmptyString
  | String c s' =>
      if Ascii.eqb c "<" then (if has_gt s' then inside_tag s' else s)
      else String c (remove_tags s')
  end
with inside_tag (s : string) : string :=
  match s with
  | EmptyString => EmptyString
  | String c s' => if Ascii.eqb c ">" then remove_tags s' else inside_tag s'
  end.

Definition stripHtmlTags (html : jsval) : string :=
  if negb (truthy_val html) then "" else remove_tags (String_ html).

Definition sanitizeAttribute (attr : jsval) : string :=
  if negb (truthy_val attr) then ""
  else
    replace_all "/" "&#x2F;"
      (replace_all ">" "&gt;"
         (replace_all "<" "&lt;"
            (replace_all "'" "&#x27;"
               (replace_all Sanitizer.quot "&quot;" (String_ attr))))).

(** [maxLength] is [None] when the caller leaves it out. *)
Definition validateSafeString (str : jsval) (maxLength : option Z)
  : outcome string :=
  let maxLength := default 500%Z maxLength in
  if negb (truthy_val str) then Ok ""
  else
    let trimmed := trim (String_ str) in
    if (maxLength <? Z.of_nat (String.length trimmed))%Z then
      Throw (Error ("String too long (max " +:+ pretty maxLength
                      +:+ " characters)"))
    else if has_tag trimmed then Throw (Error "HTML tags are not allowed")
    else if contains_ci "javascript:" trimmed || contains_ci "<script" trimmed
    then Throw (Error "Script content is not allowed")
    else Ok trimmed.

(** [l.slice(0, n)] *)
Definition slice_to (n : Z) {A} (l : list A) : list A :=
  if (n <? 0)%Z then firstn (Z.to_nat (Z.max 0 (Z.of_nat (length l) + n))) l
  else firstn (Z.to_nat n) l.

(** [photos] is [None] when the argument is not an array; [maxCount] is
    [None] when the caller leaves it out. *)
Definition sanitizePhotoArray (photos : option (list jsval)) (maxCount : option Z)
  : list string * list warning :=
  match photos with
  | None => ([], [])
  | Some photos =>
      let results := List.map sanitizeUrl (slice_to (default 10%Z maxCount) photos) in
      (List.filter (fun url => negb (String.eqb url "")) (List.map fst results),
       List.concat (List.map snd results))
  end.

(** The [img] element that [createSafeImage] builds: the properties it
    assigns; [None] stands for a property it leaves alone. *)
Record image : Type := Image {
  img_src : string;
  img_alt : string;
  img_className : option string;
  img_referrerpolicy : string;
}.

(** The placeholder of a blocked image, an empty SVG document. *)
Definition placeholder : string :=
  "data:image/svg+xml,%3Csvg xmlns="
  +:+ String Sanitizer.quot
        ("http://www.w3.org/2000/svg" +:+ String Sanitizer.quot "%3E%3C/svg%3E").

Definition createSafeImage (src : jsval) (alt className : string)
  : image * list warning :=
  let safeSrc := sanitizeUrl src in
  ({| img_src := if String.eqb (fst safeSrc) "" then placeholder else fst safeSrc;
      img_alt := alt;
      img_className := if String.eqb className "" then None else Some className;
      img_referrerpolicy := "no-referrer" |},
   snd safeSrc ++ (if String.eqb (fst safeSrc) "" then [BlockedImage] else [])).

(** The [a] element that [createSafeLink] builds.  [link_blocks_click]
    tells that it was given the click listener that prevents the default
    action and warns of a blocked link. *)
Record link : Type := Link {
  link_href : string;
  link_textContent : string;
  link_className : option string;
  link_target : option string;
  link_rel : option string;
  link_blocks_click : bool;
}.

Definition createSafeLink (href : jsval) (textContent className : string)
  : link * list warning :=
  let safeHref := sanitizeUrl href in
  let external :=
    negb (String.eqb (fst safeHref) "") &&
    (String.prefix "http://" (fst safeHref) || String.prefix "https://" (fst safeHref)) in
  ({| link_href := if String.eqb (fst safeHref) "" then "#" else fst safeHref;
      link_textContent := textContent;
      link_className := if String.eqb className "" then None else Some className;
      link_target := if external then Some "_blank" else None;
      link_rel := if external then Some "noopener noreferrer" else None;
      link_blocks_click := String.eqb (fst safeHref) "" |},
   snd safeHref).

End Sanitizing.

(** ** The self test of the sanitizer module *)

Module SanitizerTest.

(** A string between double quotes. *)
Definition quoted (s : string) : string :=
  String Sanitizer.quot (s +:+ String Sanitizer.quot EmptyString).

(** One entry of [tests], and of [results.tests] once [passed] is known. *)
Record test : Type := Test {
  name : string;
  input : string;
  expected : string;
  result : string;
}.

Record results : Type := Results {
  passed : nat;
  failed : nat;
  tests : list (test * bool);
}.

Definition xss_script : string :=
  "<script>alert(" +:+ quoted "XSS" +:+ ")</script>".

(** The five tests, with the warnings that computing their results logs. *)
Definition the_tests : list test * list Sanitizing.warning :=
  let r2 := Sanitizing.sanitizeUrl (VStr ("javascript:alert(" +:+ quoted "XSS" +:+ ")")) in
  let r3 := Sanitizing.sanitizeUrl (VStr ("data:text/html," +:+ xss_script)) in
  let r4 := Sanitizing.sanitizeUrl (VStr "https://example.com") in
  let r5 := Sanitizing.sanitizeUrl (VStr "example.com") in
  ([ {| name := "HTML Escaping";
        input := xss_script;
        expected :=
          "&lt;script&gt;alert(&quot;XSS&quot;)&lt;&#x2F;script&gt;";
        result := Sanitizer.escapeHtml (VStr xss_script) |};
     {| name := "JavaScript URL Blocking";
        input := "javascript:alert(" +:+ quoted "XSS" +:+ ")";
        expected := "";
        result := fst r2 |};
     {| name := "Data URL Blocking";
        input := "data:text/html," +:+ xss_script;
        expected := "";
        result := fst r3 |};
     {| name := "Safe HTTPS URL";
        input := "https://example.com";
        expected := "https://example.com";
        result := fst r4 |};
     {| name := "URL Without Protocol";
        input := "example.com";
        expected := "https://example.com";
        result := fst r5 |} ],
   snd r2 ++ snd r3 ++ snd r4 ++ snd r5).

Definition __testSanitizer : results * list Sanitizing.warning :=
  (fold_left
     (fun acc t =>
        let ok := String.eqb (result t) (expected t) in
        {| passed := if ok then S (passed acc) else passed acc;
           failed := if ok then failed acc else S (failed acc);
           tests := tests acc ++ [(t, ok)] |})
     (fst the_tests)
     {| passed := 0; failed := 0; tests := [] |},
   snd the_tests).

End SanitizerTest.

(** * The vocabulary of the properties *)

(** ** Values kept in sets *)

(** No two entries of the list are the same value for [===]. *)
Fixpoint distinct (l : list json) : bool :=
  match l with
  | [] => true
  | x :: l' => negb (existsb (same_value x) l') && distinct l'
  end.


(** ** Entries in normal form *)

(** What [normalizeCollections] establishes for a collection stored under
    key [k]: the key is the property key of its id, the id is the
    collection's own truthy id or else the key, and the name is truthy. *)
Definition normal_collection (kc : string * collection) : Prop :=
  to_property_key (col_id (snd kc)) = fst kc /\
  (truthy (col_id (snd kc)) = true \/ col_id (snd kc) = JStr (fst kc)) /\
  truthy (col_name (snd kc)) = true.

Definition normal (d : saved_data) : Prop :=
  Forall normal_collection (collections d) /\
  NoDup (List.map fst (collections d)).





(** ** The store of a world and the operations as commands *)

(** The store object that [getSavedStore] reads from a world. *)
Definition saved_store (w : world) : list (string * json) :=
  Local.parseJSON (localStorage w !! Local.SAVED_KEY) [].

(** The entry of a user, as [getUserSavedData] reads it. *)
Definition entry_of (w : world) (u : user) : outcome saved_data :=
  Local.normalizeEntry (builtins w !! "__proto__")
    (obj_get (saved_store w) (user_email u)).

(** The world after [setUserSavedData(user, data)]. *)
Definition persist (u : user) (d : saved_data) (w : world) : world :=
  {| localStorage :=
       <[Local.SAVED_KEY :=
           Doc (obj_set (saved_store w) (user_email u) (data_to_json d))]>
         (localStorage w);
     dispatched := dispatched w ++ [SavedChange (user_email u)];
     requests := requests w;
     builtins := builtins w |}.

(** The world with other [placeIds] properties on the built-in objects. *)
Definition with_builtins (h : gmap string (list json)) (w : world) : world :=
  {| localStorage := localStorage w;
     dispatched := dispatched w;
     requests := requests w;
     builtins := h |}.

(** [m.placeIds ?? []] on the member [m] of [Object.prototype] of the given
    name, in a page whose built-in objects carry the properties [h]. *)
Definition member_placeIds (h : gmap string (list json)) (name : string)
  : list json :=
  match h !! name with
  | Some ids => ids
  | None => default [] (h !! "__proto__")
  end.

(** The place ids found under a collection id
    ([data.collections[id]?.placeIds ?? []]): those of the user's
    collection, or those that the page has left on the inherited member of
    that name. *)
Definition place_ids_at (d : saved_data) (h : gmap string (list json))
    (k : string) : list json :=
  match obj_lookup (collections d) k with
  | Some (Own col) => placeIds col
  | Some (Builtin name) => member_placeIds h name
  | None => []
  end.

(** The page loaded anew: local storage stays, the built-in objects are
    fresh, and nothing has been dispatched or requested yet. *)
Definition reload (w : world) : world :=
  {| localStorage := localStorage w;
     dispatched := [];
     requests := [];
     builtins := ∅ |}.

(** The six operations that write, as one type of commands. *)
Inductive mutation : Type :=
| SavePlace (placeId : jsval)
| RemoveSavedPlace (placeId : jsval)
| CreateCollection (e : entropy) (name : jsval)
| DeleteCollection (collectionId : jsval)
| AddPlaceToCollection (collectionId placeId : jsval)
| RemovePlaceFromCollection (collectionId placeId : jsval).

(** What a call threw, if it did. *)
Definition thrown {A} (r : outcome A * world) : option exn * world :=
  match r with
  | (Ok _, w) => (None, w)
  | (Throw e, w) => (Some e, w)
  end.

Definition run_mutation (m : mutation) (user : option user) (w : world)
  : option exn * world :=
  match m with
  | SavePlace p => thrown (Local.savePlace user p w)
  | RemoveSavedPlace p => thrown (Local.removeSavedPlace user p w)
  | CreateCollection e name => thrown (Local.createCollection e user name w)
  | DeleteCollection c => thrown (Local.deleteCollection user c w)
  | AddPlaceToCollection c p => thrown (Local.addPlaceToCollection user c p w)
  | RemovePlaceFromCollection c p =>
      thrown (Local.removePlaceFromCollection user c p w)
  end.

(** Every collection's place ids are among the saved items. *)
Definition collections_within_items (d : saved_data) : Prop :=
  forall k c x, (k, c) ∈ collections d -> x ∈ placeIds c -> x ∈ items d.

Definition remove_from (t : json) (kc : string * collection)
  : string * collection :=
  (fst kc,
   {| col_id := col_id (snd kc);
      col_name := col_name (snd kc);
      placeIds := filter_ne t (placeIds (snd kc)) |}).

(** The worlds the application gets into: it starts without a readable
    saved store and goes on by the six operations, called for whatever
    user, or for none, and by loading the page again. *)
Inductive reachable : world -> Prop :=
| reachable_start (w : world) : saved_store w = [] -> reachable w
| reachable_step (m : mutation) (user : option user) (w : world) :
    reachable w -> reachable (snd (run_mutation m user w))
| reachable_reload (w : world) : reachable w -> reachable (reload w).

(** The store holds what the operations write: under each of its keys, the
    object form of a normal entry, of which [P] holds. *)
Definition stored_entries (P : saved_data -> Prop) (w : world) : Prop :=
  forall k v, obj_get (saved_store w) k = Some v ->
    exists d, v = data_to_json d /\ normal d /\ P d.

(** What a mutation makes of a user's entry [d], as a function of [d]: it
    throws, or returns without writing ([Ok None]), or writes a new entry;
    and what it makes of the properties [h] on the built-in objects
    ([touch]).  [run_mutation_mutate] below shows that the operations do
    just this. *)
Definition mutate (m : mutation) (d : saved_data) : outcome (option saved_data) :=
  match m with
  | SavePlace p =>
      Ok (Some {| items := set_add (new_Set (items d)) (JStr (String_ p));
                  collections := collections d |})
  | RemoveSavedPlace p =>
      Ok (Some {| items := filter_ne (JStr (String_ p)) (items d);
                  collections :=
                    List.map (remove_from (JStr (String_ p))) (collections d) |})
  | CreateCollection e name =>
      match name with
      | VUndefined | VNull => Throw (Error "Collection name is required.")
      | VBool _ | VNum _ => Throw TypeError
      | VStr s =>
          if String.eqb (trim s) "" then
            Throw (Error "Collection name is required.")
          else
            Ok (Some {| items := items d;
                        collections :=
                          obj_set (collections d) (Local.generateCollectionId e)
                            {| col_id := JStr (Local.generateCollectionId e);
                               col_name := JStr (trim s);
                               placeIds := [] |} |})
      end
  | DeleteCollection c =>
      Ok (Some {| items := items d;
                  collections := obj_delete (collections d) (String_ c) |})
  | AddPlaceToCollection c p =>
      match obj_lookup (collections d) (String_ c) with
      | None => Throw (Error "Collection not found.")
      | Some hit =>
          Ok (Some {| items :=
                        if includes (items d) (JStr (String_ p)) then items d
                        else items d ++ [JStr (String_ p)];
                      collections :=
                        match hit with
                        | Own col =>
                            obj_set (collections d) (String_ c)
                              {| col_id := col_id col; col_name := col_name col;
                                 placeIds :=
                                   set_add (new_Set (placeIds col))
                                     (JStr (String_ p)) |}
                        | Builtin _ => collections d
                        end |})
      end
  | RemovePlaceFromCollection c p =>
      match obj_lookup (collections d) (String_ c) with
      | None => Ok None
      | Some (Own col) =>
          Ok (Some {| items := items d;
                      collections :=
                        obj_set (collections d) (String_ c)
                          {| col_id := col_id col; col_name := col_name col;
                             placeIds :=
                               filter_ne (JStr (String_ p)) (placeIds col) |} |})
      | Some (Builtin _) => Ok (Some d)
      end
  end.

Definition touch (m : mutation) (d : saved_data) (h : gmap string (list json))
  : gmap string (list json) :=
  match m with
  | AddPlaceToCollection c p =>
      match obj_lookup (collections d) (String_ c) with
      | Some (Builtin name) =>
          <[name := set_add (new_Set (member_placeIds h name)) (JStr (String_ p))]> h
      | _ => h
      end
  | RemovePlaceFromCollection c p =>
      match obj_lookup (collections d) (String_ c) with
      | Some (Builtin name) =>
          <[name := filter_ne (JStr (String_ p)) (member_placeIds h name)]> h
      | _ => h
      end
  | _ => h
  end.

(** ** Characters in strings *)

(** The character occurs in the string. *)
Fixpoint occurs (c : ascii) (s : string) : bool :=
  match s with
  | EmptyString => false
  | String d s' => Ascii.eqb d c || occurs c s'
  end.

(** The characters that open or close markup and attribute values. *)
Definition markup_chars : list ascii :=
  ["<"%char; ">"%char; Sanitizer.quot; "'"%char; "/"%char].

(** Neither the items nor the place ids of any collection hold the same
    value twice. *)
Definition no_duplicates (d : saved_data) : Prop :=
  distinct (items d) = true /\
  Forall (fun kc => distinct (placeIds (snd kc)) = true) (collections d).

(** [s] with the prefix [p] taken off, when it starts with [p]. *)
Fixpoint strip_prefix (p s : string) : option string :=
  match p, s with
  | EmptyString, _ => Some s
  | String a p', String b s' => if Ascii.eqb a b then strip_prefix p' s' else None
  | String _ _, EmptyString => None
  end.

(** Reads one escaped character off the front of a text that [escapeHtml]
    produced: an entity for the six characters it replaces, the character
    itself otherwise. *)
Definition unescape_head (s : string) : option (ascii * string) :=
  match s with
  | EmptyString => None
  | String c rest =>
      if Ascii.eqb c "&" then
        match strip_prefix "amp;" rest, strip_prefix "lt;" rest,
              strip_prefix "gt;" rest, strip_prefix "quot;" rest,
              strip_prefix "#039;" rest, strip_prefix "#x2F;" rest with
        | Some r, _, _, _, _, _ => Some ("&"%char, r)
        | _, Some r, _, _, _, _ => Some ("<"%char, r)
        | _, _, Some r, _, _, _ => Some (">"%char, r)
        | _, _, _, Some r, _, _ => Some (Sanitizer.quot, r)
        | _, _, _, _, Some r, _ => Some ("'"%char, r)
        | _, _, _, _, _, Some r => Some ("/"%char, r)
        | _, _, _, _, _, _ => None
        end
      else Some (c, rest)
  end.

(** ** Sample worlds *)

Definition alice : user :=
  {| user_id := None; user_name := "Alice"; user_email := "alice@example.com" |}.

Definition no_storage : world :=
  {| localStorage := ∅; dispatched := []; requests := []; builtins := ∅ |}.

(** Alice has three saved items and one collection; Bob's entry is still in
    the legacy format, a bare array. *)
Definition sample_store : list (string * json) :=
  [("alice@example.com",
    JObj [("items", JArr [JStr "p1"; JNum 7; JStr "p2"]);
          ("collections",
           JObj [("col-a",
                  JObj [("id", JStr "col-a"); ("name", JStr "Silk");
                        ("placeIds", JArr [JStr "p1"; JStr "p2"])])])]);
   ("bob@example.com", JArr [JStr "p9"])].

Definition sample_world : world :=
  {| localStorage := {[ Local.SAVED_KEY := Doc sample_store ]};
     dispatched := [];
     requests := [];
     builtins := ∅ |}.

Definition sample_data : saved_data :=
  {| items := [JStr "p1"; JNum 7; JStr "p2"];
     collections :=
       [("col-a",
         {| col_id := JStr "col-a"; col_name := JStr "Silk";
            placeIds := [JStr "p1"; JStr "p2"] |})] |}.



(** * Properties *)

(** ** The JavaScript primitives *)

Section primitives.

Lemma same_value_str (v : json) (s : string) :
  same_value v (JStr s) = true <-> v = JStr s.
Proof.
  destruct v; simpl; try (split; [discriminate | congruence]).
  rewrite String.eqb_eq. split; congruence.
Qed.

Lemma same_value_sym (a b : json) : same_value a b = same_value b a.
Proof.
  destruct a, b; simpl; try reflexivity.
  - destruct b, b0; reflexivity.
  - apply Z.eqb_sym.
  - apply String.eqb_sym.
Qed.

Lemma same_value_eq (a b : json) : same_value a b = true -> a = b.
Proof.
  destruct a, b; simpl; try discriminate; try reflexivity.
  - intros H. f_equal. destruct b, b0; simpl in H; congruence.
  - intros H. f_equal. by apply Z.eqb_eq.
  - intros H. f_equal. by apply String.eqb_eq.
Qed.

Lemma includes_str (l : list json) (s : string) :
  includes l (JStr s) = true <-> JStr s ∈ l.
Proof.
  unfold includes. rewrite existsb_exists. split.
  - intros (x & Hx & Hs). apply same_value_str in Hs. subst x.
    by apply list_elem_of_In.
  - intros H. exists (JStr s). split; [by apply list_elem_of_In|].
    by apply same_value_str.
Qed.

Lemma elem_of_filter_ne (t x : json) (l : list json) :
  x ∈ filter_ne t l <-> x ∈ l /\ same_value x t = false.
Proof.
  unfold filter_ne. rewrite !list_elem_of_In, filter_In.
  by rewrite negb_true_iff.
Qed.

Lemma filter_ne_sublist (t : json) (l : list json) : filter_ne t l `sublist_of` l.
Proof.
  induction l as [|x l IH]; simpl; [constructor|].
  destruct (negb (same_value x t)); by constructor.
Qed.

Lemma filter_ne_absent (l : list json) (s : string) : JStr s ∉ filter_ne (JStr s) l.
Proof.
  intros [_ H]%elem_of_filter_ne.
  assert (same_value (JStr s) (JStr s) = true) by by apply same_value_str.
  congruence.
Qed.

Lemma filter_ne_other (l : list json) (s : string) (x : json) :
  x ≠ JStr s -> (x ∈ filter_ne (JStr s) l <-> x ∈ l).
Proof.
  intros Hne. rewrite elem_of_filter_ne. split; [tauto|].
  intros H. split; [done|].
  destruct (same_value x (JStr s)) eqn:E; [|done].
  by apply same_value_str in E.
Qed.

End primitives.

(** ** Sets of ids, as [new Set] builds them *)

Section sets.

Lemma existsb_same_value_snoc (x y : json) (l : list json) :
  existsb (same_value x) (l ++ [y]) = existsb (same_value x) l || same_value x y.
Proof. rewrite existsb_app. simpl. by rewrite orb_false_r. Qed.

Lemma distinct_snoc (l : list json) (x : json) :
  distinct (l ++ [x]) = distinct l && negb (existsb (same_value x) l).
Proof.
  induction l as [|a l IH]; simpl; [done|].
  rewrite existsb_same_value_snoc, IH, negb_orb, (same_value_sym x a).
  destruct (existsb (same_value a) l), (same_value a x), (distinct l),
    (existsb (same_value x) l); reflexivity.
Qed.

Lemma set_add_distinct (s : list json) (x : json) :
  distinct s = true -> distinct (set_add s x) = true.
Proof.
  intros H. unfold set_add.
  destruct (existsb (same_value x) s) eqn:E; [done|].
  by rewrite distinct_snoc, H, E.
Qed.

Lemma fold_set_add_distinct (l acc : list json) :
  distinct acc = true -> distinct (fold_left set_add l acc) = true.
Proof.
  revert acc. induction l as [|x l IH]; intros acc H; simpl; [done|].
  by apply IH, set_add_distinct.
Qed.

Lemma new_Set_distinct (l : list json) : distinct (new_Set l) = true.
Proof. by apply fold_set_add_distinct. Qed.




Lemma elem_of_set_add (s : list json) (x y : json) :
  y ∈ set_add s x <-> y ∈ s \/ y = x.
Proof.
  unfold set_add. destruct (existsb (same_value x) s) eqn:E.
  - split; [tauto|]. intros [H| ->]; [done|].
    apply existsb_exists in E as (z & Hz & Hs).
    apply same_value_eq in Hs. subst z. by apply list_elem_of_In.
  - rewrite elem_of_app, list_elem_of_singleton. tauto.
Qed.

Lemma elem_of_fold_set_add (l acc : list json) (y : json) :
  y ∈ fold_left set_add l acc <-> y ∈ acc \/ y ∈ l.
Proof.
  revert acc. induction l as [|x l IH]; intros acc; simpl.
  - rewrite elem_of_nil. tauto.
  - rewrite IH, elem_of_set_add, elem_of_cons. tauto.
Qed.

Lemma elem_of_new_Set (l : list json) (y : json) : y ∈ new_Set l <-> y ∈ l.
Proof.
  unfold new_Set. rewrite elem_of_fold_set_add, elem_of_nil. tauto.
Qed.





End sets.

(** ** Objects as property lists *)

Section objects.
Context {A : Type}.
Implicit Types (o : list (string * A)) (k : string) (v : A).

Lemma obj_get_set_eq o k v : obj_get (obj_set o k v) k = Some v.
Proof.
  induction o as [|[k' v'] o IH]; simpl.
  - by rewrite String.eqb_refl.
  - destruct (String.eqb k' k) eqn:E; simpl.
    + by rewrite String.eqb_refl.
    + by rewrite E.
Qed.

Lemma obj_get_set_ne o k k' v :
  k <> k' -> obj_get (obj_set o k v) k' = obj_get o k'.
Proof.
  intros Hne. induction o as [|[k0 v0] o IH]; simpl.
  - by apply String.eqb_neq in Hne as ->.
  - destruct (String.eqb k0 k) eqn:E; simpl.
    + apply String.eqb_eq in E. subst k0.
      by apply String.eqb_neq in Hne as ->.
    + by rewrite IH.
Qed.


Lemma obj_get_elem_of o k v : obj_get o k = Some v -> (k, v) ∈ o.
Proof.
  induction o as [|[k' v'] o IH]; simpl; [done|].
  destruct (String.eqb k' k) eqn:E.
  - apply String.eqb_eq in E. intros [= ->]. subst. by left.
  - intros H. right. by apply IH.
Qed.

Lemma elem_of_obj_get o k v :
  NoDup (List.map fst o) -> (k, v) ∈ o -> obj_get o k = Some v.
Proof.
  induction o as [|[k' v'] o IH]; simpl; [by intros _ ?%elem_of_nil|].
  intros [Hk Hnd]%NoDup_cons [[= -> ->]|Hin]%elem_of_cons.
  - by rewrite String.eqb_refl.
  - destruct (String.eqb k' k) eqn:E; [|by apply IH].
    apply String.eqb_eq in E. subst k'. destruct Hk.
    change k with (fst (k, v)). apply list_elem_of_In, in_map.
    by apply list_elem_of_In.
Qed.

Lemma obj_set_fresh o k v : k ∉ List.map fst o -> obj_set o k v = o ++ [(k, v)].
Proof.
  induction o as [|[k' v'] o IH]; simpl; [done|].
  intros [Hne Hk]%not_elem_of_cons.
  assert (String.eqb k' k = false) as -> by (apply String.eqb_neq; congruence).
  by rewrite IH.
Qed.

Lemma obj_set_keys_present o k v :
  k ∈ List.map fst o -> List.map fst (obj_set o k v) = List.map fst o.
Proof.
  induction o as [|[k' v'] o IH]; simpl; [by intros ?%elem_of_nil|].
  intros Hin. destruct (String.eqb k' k) eqn:E; simpl.
  - apply String.eqb_eq in E. by subst.
  - apply String.eqb_neq in E. f_equal. apply IH.
    apply elem_of_cons in Hin as [?|?]; [congruence | done].
Qed.

Lemma obj_set_NoDup o k v :
  NoDup (List.map fst o) -> NoDup (List.map fst (obj_set o k v)).
Proof.
  intros Hnd. destruct (decide (k ∈ List.map fst o)) as [Hin|Hout].
  - by rewrite obj_set_keys_present.
  - rewrite obj_set_fresh, map_app by done. simpl.
    apply NoDup_app. split_and!; [done | | apply NoDup_singleton].
    intros x Hx ->%list_elem_of_singleton. done.
Qed.

Lemma obj_set_Forall (P : string * A -> Prop) o k v :
  Forall P o -> P (k, v) -> Forall P (obj_set o k v).
Proof.
  intros Ho Hkv. induction Ho as [|[k' v'] o Hx Ho IH]; simpl.
  - by constructor.
  - destruct (String.eqb k' k); by constructor.
Qed.

Lemma fold_obj_set_NoDup (es acc : list (string * A)) :
  NoDup (List.map fst acc) ->
  NoDup (List.map fst (fold_left (fun o kv => obj_set o (fst kv) (snd kv)) es acc)).
Proof.
  revert acc. induction es as [|[k v] es IH]; intros acc H; simpl; [done|].
  by apply IH, obj_set_NoDup.
Qed.

Lemma fold_obj_set_Forall (P : string * A -> Prop) (es acc : list (string * A)) :
  Forall P acc -> Forall P es ->
  Forall P (fold_left (fun o kv => obj_set o (fst kv) (snd kv)) es acc).
Proof.
  revert acc. induction es as [|[k v] es IH]; intros acc Ha He; simpl; [done|].
  apply Forall_cons in He as [Hkv He]. by apply IH; [apply obj_set_Forall|].
Qed.

Lemma fold_obj_set_id (es acc : list (string * A)) :
  NoDup (List.map fst (acc ++ es)) ->
  fold_left (fun o kv => obj_set o (fst kv) (snd kv)) es acc = acc ++ es.
Proof.
  revert acc. induction es as [|[k v] es IH]; intros acc H; simpl.
  - by rewrite app_nil_r.
  - rewrite obj_set_fresh.
    + rewrite IH; rewrite <- app_assoc; done.
    + rewrite map_app in H. apply NoDup_app in H as (_ & H & _).
      intros Hin. apply (H k Hin). simpl. by left.
Qed.







Lemma Object_fromEntries_NoDup (es : list (string * A)) :
  NoDup (List.map fst (Object_fromEntries es)).
Proof. apply fold_obj_set_NoDup. constructor. Qed.

Lemma Object_fromEntries_Forall (P : string * A -> Prop) (es : list (string * A)) :
  Forall P es -> Forall P (Object_fromEntries es).
Proof. by apply fold_obj_set_Forall. Qed.

(** Rebuilding an object from its own entries gives the object back. *)
Lemma Object_fromEntries_id o :
  NoDup (List.map fst o) -> Object_fromEntries o = o.
Proof. intros H. by apply (fold_obj_set_id o []). Qed.

Lemma obj_delete_NoDup o k :
  NoDup (List.map fst o) -> NoDup (List.map fst (obj_delete o k)).
Proof.
  induction o as [|[k' v'] o IH]; simpl; [done|].
  intros [Hk Hnd]%NoDup_cons. destruct (negb (String.eqb k' k)); simpl; [|by apply IH].
  apply NoDup_cons. split; [|by apply IH].
  intros Hin. apply Hk. apply list_elem_of_In, in_map_iff in Hin as ([k0 v0] & <- & Hin).
  apply filter_In in Hin as [Hin _]. simpl.
  change k0 with (fst (k0, v0)). by apply list_elem_of_In, in_map.
Qed.

Lemma obj_delete_Forall (P : string * A -> Prop) o k :
  Forall P o -> Forall P (obj_delete o k).
Proof.
  intros H. apply Forall_forall. intros x Hx.
  apply list_elem_of_In, filter_In in Hx as [Hx _].
  rewrite Forall_forall in H. by apply H, list_elem_of_In.
Qed.

Lemma elem_of_obj_set o k v (kv : string * A) :
  kv ∈ obj_set o k v -> kv ∈ o \/ kv = (k, v).
Proof.
  induction o as [|[k' v'] o IH]; simpl.
  - intros ->%list_elem_of_singleton. by right.
  - destruct (String.eqb k' k).
    + intros [->|H]%elem_of_cons; [by right | left; by right].
    + intros [->|H]%elem_of_cons; [left; by left|].
      destruct (IH H) as [?|?]; [left; by right | by right].
Qed.

Lemma elem_of_obj_delete o k (kv : string * A) : kv ∈ obj_delete o k -> kv ∈ o.
Proof.
  intros H. apply list_elem_of_In, filter_In in H as [H _].
  by apply list_elem_of_In.
Qed.



Lemma obj_lookup_own o k v : obj_get o k = Some v -> obj_lookup o k = Some (Own v).
Proof. unfold obj_lookup. by intros ->. Qed.



Lemma obj_lookup_Own o k v : obj_lookup o k = Some (Own v) -> obj_get o k = Some v.
Proof.
  unfold obj_lookup. destruct (obj_get o k); [by intros [= ->]|].
  by destruct (inherited k).
Qed.

Lemma obj_lookup_Builtin o k (name : string) :
  obj_lookup o k = Some (Builtin name) ->
  name = k /\ obj_get o k = None /\ inherited k = true.
Proof.
  unfold obj_lookup. destruct (obj_get o k); [done|].
  destruct (inherited k); [|done]. by intros [= <-].
Qed.

Lemma obj_lookup_None o k :
  obj_lookup o k = None -> obj_get o k = None /\ inherited k = false.
Proof.
  unfold obj_lookup. destruct (obj_get o k); [done|].
  by destruct (inherited k).
Qed.

End objects.

(** ** Normalization of stored entries *)

Section normalization.
Implicit Types (op : option (list json)).

Lemma normalizeCollection_normal op (id : string) (col : json) kc :
  Local.normalizeCollection op id col = Ok kc -> normal_collection kc.
Proof.
  unfold Local.normalizeCollection, normal_collection.
  destruct col; try discriminate; intros [= <-]; simpl;
    repeat case_match; simpl; auto.
Qed.

Lemma normalizeCollection_throws op (id : string) (col : json) e :
  Local.normalizeCollection op id col = Throw e -> col = JNull /\ e = TypeError.
Proof. destruct col; simpl; intros [=]; auto. Qed.

Lemma map_entries_normal op (es : list (string * json)) r :
  Local.map_entries op es = Ok r -> Forall normal_collection r.
Proof.
  revert r. induction es as [|[id col] es IH]; simpl; intros r.
  - intros [= <-]. constructor.
  - destruct (Local.normalizeCollection op id col) as [kc|] eqn:E; simpl; [|done].
    destruct (Local.map_entries op es) as [rest|]; simpl; [|done].
    intros [= <-]. constructor; [by eapply normalizeCollection_normal | by apply IH].
Qed.

Lemma map_entries_throws op (es : list (string * json)) e :
  Local.map_entries op es = Throw e ->
  e = TypeError /\
  existsb (fun kv => match snd kv with JNull => true | _ => false end) es = true.
Proof.
  induction es as [|[id col] es IH]; simpl; [done|].
  destruct (Local.normalizeCollection op id col) as [kc|e'] eqn:E; simpl.
  - destruct (Local.map_entries op es) as [rest|e']; simpl; [done|].
    intros [= ->]. destruct IH as [-> ->]; [done|]. by rewrite orb_true_r.
  - intros [= ->]. by apply normalizeCollection_throws in E as [-> ->].
Qed.

Lemma map_entries_total op (es : list (string * json)) :
  existsb (fun kv => match snd kv with JNull => true | _ => false end) es = false ->
  exists r, Local.map_entries op es = Ok r.
Proof.
  intros H. destruct (Local.map_entries op es) as [r|e] eqn:E; [by exists r|].
  apply map_entries_throws in E as [_ E]. congruence.
Qed.


Lemma normalizeCollections_normal op (c : option json) r :
  Local.normalizeCollections op c = Ok r ->
  Forall normal_collection r /\ NoDup (List.map fst r).
Proof.
  unfold Local.normalizeCollections.
  destruct c as [[| | | |l|o]|]; try (intros [= <-]; split; constructor).
  - destruct (Local.map_entries op (array_entries l)) as [es|] eqn:E; simpl; [|done].
    intros [= <-]. split; [|apply Object_fromEntries_NoDup].
    by eapply Object_fromEntries_Forall, map_entries_normal.
  - destruct (Local.map_entries op o) as [es|] eqn:E; simpl; [|done].
    intros [= <-]. split; [|apply Object_fromEntries_NoDup].
    by eapply Object_fromEntries_Forall, map_entries_normal.
Qed.

(** Whatever [normalizeEntry] returns is in normal form. *)
Lemma normalizeEntry_normal op (entry : option json) d :
  Local.normalizeEntry op entry = Ok d -> normal d.
Proof.
  assert (normal {| items := []; collections := [] |}) as Hempty
    by (split; constructor).
  unfold Local.normalizeEntry. destruct entry as [e|]; [|by intros [= <-]].
  destruct (negb (truthy e)); [by intros [= <-]|].
  destruct e; try (intros [= <-]; split; constructor).
  destruct (Local.normalizeCollections _) as [cols|] eqn:E; simpl; [|done].
  intros [= <-]. by apply normalizeCollections_normal in E.
Qed.



Lemma normalizeCollection_roundtrip op (kc : string * collection) :
  normal_collection kc ->
  Local.normalizeCollection op (fst kc) (collection_to_json (snd kc)) = Ok kc.
Proof.
  destruct kc as [k [i n p]]. unfold normal_collection. simpl.
  intros (Hk & Hi & Hn). unfold Local.normalizeCollection. simpl.
  rewrite Hn. destruct Hi as [-> | ->].
  - by rewrite Hk.
  - simpl. destruct (negb (String.eqb k "")); reflexivity.
Qed.

Lemma map_entries_roundtrip op (cs : list (string * collection)) :
  Forall normal_collection cs ->
  Local.map_entries op
    (List.map (fun kc => (fst kc, collection_to_json (snd kc))) cs) = Ok cs.
Proof.
  induction 1 as [|[k c] cs Hkc Hcs IH]; [done|].
  pose proof (normalizeCollection_roundtrip op _ Hkc) as E.
  cbn [fst snd List.map Local.map_entries] in *. by rewrite E, IH.
Qed.

(** Reading back what was written: normalizing the stringified form of a
    normal entry returns the entry. *)
Lemma normalizeEntry_roundtrip op (d : saved_data) :
  normal d -> Local.normalizeEntry op (Some (data_to_json d)) = Ok d.
Proof.
  intros [Hall Hnd]. destruct d as [its cols]. simpl in *.
  unfold Local.normalizeEntry, data_to_json. simpl.
  rewrite map_entries_roundtrip by done. simpl.
  by rewrite Object_fromEntries_id.
Qed.






End normalization.

(** ** Running the operations on a world *)

Lemma getUserSavedData_run (u : user) (w : world) :
  Local.getUserSavedData (Some u) w = (entry_of w u, w).
Proof. reflexivity. Qed.

Lemma setUserSavedData_run (u : user) (d : saved_data) (w : world) :
  Local.setUserSavedData (Some u) d w = (Ok tt, persist u d w).
Proof. reflexivity. Qed.

(** Runs an operation [f] up to its read of the user's entry, of which [E]
    gives the outcome. *)
Ltac run_op f E := unfold f, bind; rewrite getUserSavedData_run, E.

Section running.
Implicit Types (u : user) (w : world) (d : saved_data).
Implicit Types (h : gmap string (list json)).

Lemma saved_store_persist u d w :
  saved_store (persist u d w)
  = obj_set (saved_store w) (user_email u) (data_to_json d).
Proof. unfold saved_store at 1, persist. simpl. by rewrite lookup_insert_eq. Qed.

(** After a write, the user's entry reads back as written. *)
Lemma entry_of_persist u d w : normal d -> entry_of (persist u d w) u = Ok d.
Proof.
  intros H. unfold entry_of.
  by rewrite saved_store_persist, obj_get_set_eq, normalizeEntry_roundtrip.
Qed.

(** A write leaves the entries under other keys alone. *)
Lemma persist_frame u d w (k : string) :
  k <> user_email u ->
  obj_get (saved_store (persist u d w)) k = obj_get (saved_store w) k.
Proof. intros H. rewrite saved_store_persist. by apply obj_get_set_ne. Qed.

Lemma entry_of_normal u w d : entry_of w u = Ok d -> normal d.
Proof. apply normalizeEntry_normal. Qed.

Lemma savePlace_run u (p : jsval) w d :
  entry_of w u = Ok d ->
  Local.savePlace (Some u) p w
  = (Ok (set_add (new_Set (items d)) (JStr (String_ p))),
     persist u {| items := set_add (new_Set (items d)) (JStr (String_ p));
                  collections := collections d |} w).
Proof.
  intros E. by run_op Local.savePlace E.
Qed.

Lemma savePlace_throws u (p : jsval) w e :
  entry_of w u = Throw e -> Local.savePlace (Some u) p w = (Throw e, w).
Proof.
  intros E. by run_op Local.savePlace E.
Qed.

Lemma removeSavedPlace_run u (p : jsval) w d :
  entry_of w u = Ok d ->
  Local.removeSavedPlace (Some u) p w
  = (Ok (filter_ne (JStr (String_ p)) (items d)),
     persist u
       {| items := filter_ne (JStr (String_ p)) (items d);
          collections :=
            List.map (remove_from (JStr (String_ p))) (collections d) |} w).
Proof.
  intros E. by run_op Local.removeSavedPlace E.
Qed.

Lemma removeSavedPlace_throws u (p : jsval) w e :
  entry_of w u = Throw e -> Local.removeSavedPlace (Some u) p w = (Throw e, w).
Proof.
  intros E. by run_op Local.removeSavedPlace E.
Qed.

Lemma getPlaceIds_run (name : string) w :
  getPlaceIds name w = (Ok (Some (member_placeIds (builtins w) name)), w) \/
  (getPlaceIds name w = (Ok None, w) /\ member_placeIds (builtins w) name = []).
Proof.
  unfold getPlaceIds, member_placeIds.
  destruct (builtins w !! name); [by left|].
  destruct (builtins w !! "__proto__"); [by left | by right].
Qed.

Lemma default_getPlaceIds (name : string) w :
  exists old, getPlaceIds name w = (Ok old, w) /\
              default [] old = member_placeIds (builtins w) name.
Proof.
  destruct (getPlaceIds_run name w) as [H|[H1 H2]].
  - eexists. split; [exact H | done].
  - eexists. split; [exact H1 | by rewrite H2].
Qed.

Lemma addPlaceToCollection_run u (c p : jsval) w d col :
  entry_of w u = Ok d ->
  obj_get (collections d) (String_ c) = Some col ->
  let col' :=
    {| col_id := col_id col; col_name := col_name col;
       placeIds := set_add (new_Set (placeIds col)) (JStr (String_ p)) |} in
  Local.addPlaceToCollection (Some u) c p w
  = (Ok (Own col'),
     persist u
       {| items :=
            if includes (items d) (JStr (String_ p)) then items d
            else items d ++ [JStr (String_ p)];
          collections := obj_set (collections d) (String_ c) col' |} w).
Proof.
  intros E Hc. run_op Local.addPlaceToCollection E.
  by rewrite (obj_lookup_own _ _ _ Hc).
Qed.

Lemma addPlaceToCollection_missing u (c p : jsval) w d :
  entry_of w u = Ok d ->
  obj_lookup (collections d) (String_ c) = None ->
  Local.addPlaceToCollection (Some u) c p w
  = (Throw (Error "Collection not found."), w).
Proof.
  intros E Hc. run_op Local.addPlaceToCollection E. by rewrite Hc.
Qed.

(** Under the name of a member of [Object.prototype] the call goes
    through: it leaves the place id on that member and writes the entry
    with the place among the items. *)
Lemma addPlaceToCollection_builtin u (c p : jsval) w d (name : string) :
  entry_of w u = Ok d ->
  obj_lookup (collections d) (String_ c) = Some (Builtin name) ->
  Local.addPlaceToCollection (Some u) c p w
  = (Ok (Builtin name),
     persist u
       {| items :=
            if includes (items d) (JStr (String_ p)) then items d
            else items d ++ [JStr (String_ p)];
          collections := collections d |}
       (with_builtins
          (<[name := set_add (new_Set (member_placeIds (builtins w) name))
                       (JStr (String_ p))]> (builtins w)) w)).
Proof.
  intros E Hc. run_op Local.addPlaceToCollection E. rewrite Hc.
  destruct (default_getPlaceIds name w) as (old & -> & ->). reflexivity.
Qed.

Lemma addPlaceToCollection_throws u (c p : jsval) w e :
  entry_of w u = Throw e ->
  Local.addPlaceToCollection (Some u) c p w = (Throw e, w).
Proof.
  intros E. by run_op Local.addPlaceToCollection E.
Qed.

Lemma removePlaceFromCollection_run u (c p : jsval) w d col :
  entry_of w u = Ok d ->
  obj_get (collections d) (String_ c) = Some col ->
  Local.removePlaceFromCollection (Some u) c p w
  = (Ok tt,
     persist u
       {| items := items d;
          collections :=
            obj_set (collections d) (String_ c)
              {| col_id := col_id col; col_name := col_name col;
                 placeIds := filter_ne (JStr (String_ p)) (placeIds col) |} |} w).
Proof.
  intros E Hc. run_op Local.removePlaceFromCollection E.
  by rewrite (obj_lookup_own _ _ _ Hc).
Qed.

Lemma removePlaceFromCollection_missing u (c p : jsval) w d :
  entry_of w u = Ok d ->
  obj_lookup (collections d) (String_ c) = None ->
  Local.removePlaceFromCollection (Some u) c p w = (Ok tt, w).
Proof. intros E Hc. run_op Local.removePlaceFromCollection E. by rewrite Hc. Qed.

(** Under the name of a member of [Object.prototype] the call writes the
    entry as it read it, and leaves the filtered place ids on the member. *)
Lemma removePlaceFromCollection_builtin u (c p : jsval) w d (name : string) :
  entry_of w u = Ok d ->
  obj_lookup (collections d) (String_ c) = Some (Builtin name) ->
  Local.removePlaceFromCollection (Some u) c p w
  = (Ok tt,
     persist u d
       (with_builtins
          (<[name := filter_ne (JStr (String_ p))
                       (member_placeIds (builtins w) name)]> (builtins w)) w)).
Proof.
  intros E Hc. run_op Local.removePlaceFromCollection E. rewrite Hc.
  destruct (default_getPlaceIds name w) as (old & -> & ->). reflexivity.
Qed.

Lemma removePlaceFromCollection_throws u (c p : jsval) w e :
  entry_of w u = Throw e ->
  Local.removePlaceFromCollection (Some u) c p w = (Throw e, w).
Proof. intros E. by run_op Local.removePlaceFromCollection E. Qed.

Lemma with_builtins_id w : with_builtins (builtins w) w = w.
Proof. by destruct w. Qed.

Lemma saved_store_with_builtins h w : saved_store (with_builtins h w) = saved_store w.
Proof. reflexivity. Qed.


Lemma getSavedStore_run w :
  Local.getSavedStore w = (Ok (saved_store w), w).
Proof. reflexivity. Qed.

Lemma remote_getUserSavedData_run u w :
  Remote.getUserSavedData (Some u) w = (entry_of w u, w).
Proof. reflexivity. Qed.

Lemma remote_setUserSavedData_run u d w :
  Remote.setUserSavedData (Some u) d w = (Ok tt, persist u d w).
Proof. reflexivity. Qed.

Lemma sample_entry : entry_of sample_world alice = Ok sample_data.
Proof. vm_compute. reflexivity. Qed.

End running.

(** ** The operations keep entries normal and within the saved items *)

Section preservation.
Implicit Types (u : user) (w : world) (d : saved_data).

Lemma obj_get_remove_from (t : json) (cs : list (string * collection)) (k : string) :
  obj_get (List.map (remove_from t) cs) k
  = option_map (fun c => snd (remove_from t (k, c))) (obj_get cs k).
Proof.
  induction cs as [|[k' c'] cs IH]; simpl; [done|].
  by destruct (String.eqb k' k).
Qed.

Lemma normal_save d (x : json) :
  normal d ->
  normal {| items := set_add (new_Set (items d)) x; collections := collections d |}.
Proof. done. Qed.

Lemma normal_remove d (t : json) :
  normal d ->
  normal {| items := filter_ne t (items d);
            collections := List.map (remove_from t) (collections d) |}.
Proof.
  intros [Hall Hnd]. split; simpl.
  - apply Forall_forall. intros kc Hkc.
    apply list_elem_of_In, in_map_iff in Hkc as (kc0 & <- & Hin).
    rewrite Forall_forall in Hall. apply list_elem_of_In in Hin.
    exact (Hall kc0 Hin).
  - by rewrite map_map.
Qed.

Lemma normal_set d (its : list json) (k : string) (c : collection) :
  normal d -> normal_collection (k, c) ->
  normal {| items := its; collections := obj_set (collections d) k c |}.
Proof.
  intros [Hall Hnd] Hc. split; simpl;
    [by apply obj_set_Forall | by apply obj_set_NoDup].
Qed.

Lemma normal_delete d (k : string) :
  normal d ->
  normal {| items := items d; collections := obj_delete (collections d) k |}.
Proof.
  intros [Hall Hnd]. split; simpl;
    [by apply obj_delete_Forall | by apply obj_delete_NoDup].
Qed.

Lemma normal_created (id name : string) :
  name <> "" ->
  normal_collection
    (id, {| col_id := JStr id; col_name := JStr name; placeIds := [] |}).
Proof.
  intros H. split_and!; simpl; [done | by right |].
  by apply negb_true_iff, String.eqb_neq.
Qed.

Lemma normal_updated d (k : string) (c : collection) (ids : list json) :
  normal d -> obj_get (collections d) k = Some c ->
  normal_collection
    (k, {| col_id := col_id c; col_name := col_name c; placeIds := ids |}).
Proof.
  intros [Hall _] Hc. apply obj_get_elem_of in Hc.
  rewrite Forall_forall in Hall. apply (Hall _ Hc).
Qed.

Lemma within_save d (x : json) :
  collections_within_items d ->
  collections_within_items
    {| items := set_add (new_Set (items d)) x; collections := collections d |}.
Proof.
  intros H k c y Hc Hy. simpl in *.
  apply elem_of_set_add. left. apply elem_of_new_Set. by eapply H.
Qed.

Lemma within_remove d (t : json) :
  collections_within_items d ->
  collections_within_items
    {| items := filter_ne t (items d);
       collections := List.map (remove_from t) (collections d) |}.
Proof.
  intros H k c y Hc Hy. simpl in *.
  apply list_elem_of_In, in_map_iff in Hc as ([k0 c0] & [= <- <-] & Hin).
  simpl in Hy. apply elem_of_filter_ne in Hy as [Hy Hne].
  apply elem_of_filter_ne. split; [|done].
  eapply H; [by apply list_elem_of_In | done].
Qed.

Lemma within_created d (id : string) (i n : json) :
  collections_within_items d ->
  collections_within_items
    {| items := items d;
       collections :=
         obj_set (collections d) id
           {| col_id := i; col_name := n; placeIds := [] |} |}.
Proof.
  intros H k c y Hc Hy. simpl in *.
  apply elem_of_obj_set in Hc as [Hc|[= -> ->]]; [by eapply H|].
  by apply elem_of_nil in Hy.
Qed.

Lemma within_delete d (k : string) :
  collections_within_items d ->
  collections_within_items
    {| items := items d; collections := obj_delete (collections d) k |}.
Proof.
  intros H k' c y Hc Hy. simpl in *. apply elem_of_obj_delete in Hc. by eapply H.
Qed.

Lemma within_add d (k s : string) (c : collection) :
  collections_within_items d ->
  obj_get (collections d) k = Some c ->
  collections_within_items
    {| items :=
         if includes (items d) (JStr s) then items d else items d ++ [JStr s];
       collections :=
         obj_set (collections d) k
           {| col_id := col_id c; col_name := col_name c;
              placeIds := set_add (new_Set (placeIds c)) (JStr s) |} |}.
Proof.
  intros H Hk k' c' y Hc Hy. simpl in *.
  assert (forall z, z ∈ items d \/ z = JStr s ->
    z ∈ (if includes (items d) (JStr s) then items d else items d ++ [JStr s]))
    as Hitems.
  { intros z Hz. destruct (includes (items d) (JStr s)) eqn:E.
    - destruct Hz as [?| ->]; [done | by apply includes_str].
    - rewrite elem_of_app, list_elem_of_singleton. tauto. }
  apply Hitems.
  apply elem_of_obj_set in Hc as [Hc|[= -> ->]].
  - left. by eapply H.
  - simpl in Hy. apply elem_of_set_add in Hy as [Hy|Hy]; [|by right].
    left. rewrite elem_of_new_Set in Hy. apply obj_get_elem_of in Hk.
    exact (H _ _ _ Hk Hy).
Qed.

Lemma within_remove_from d (k : string) (t : json) (c : collection) :
  collections_within_items d ->
  obj_get (collections d) k = Some c ->
  collections_within_items
    {| items := items d;
       collections :=
         obj_set (collections d) k
           {| col_id := col_id c; col_name := col_name c;
              placeIds := filter_ne t (placeIds c) |} |}.
Proof.
  intros H Hk k' c' y Hc Hy. simpl in *.
  apply elem_of_obj_set in Hc as [Hc|[= -> ->]]; [by eapply H|].
  simpl in Hy. apply elem_of_filter_ne in Hy as [Hy _].
  apply obj_get_elem_of in Hk. exact (H _ _ _ Hk Hy).
Qed.

Lemma within_items d (its : list json) :
  collections_within_items d ->
  (forall x, x ∈ items d -> x ∈ its) ->
  collections_within_items {| items := its; collections := collections d |}.
Proof. intros H Hi k c y Hc Hy. simpl in *. apply Hi. by eapply H. Qed.

Lemma elem_of_pushed (l : list json) (s : string) (x : json) :
  x ∈ (if includes l (JStr s) then l else l ++ [JStr s]) <-> x ∈ l \/ x = JStr s.
Proof.
  destruct (includes l (JStr s)) eqn:E.
  - apply includes_str in E. split; [by left | by intros [?| ->]].
  - by rewrite elem_of_app, list_elem_of_singleton.
Qed.

(** The operations, on a readable entry, do what [mutate] and [touch]
    say. *)
Lemma run_mutation_mutate m u w d :
  entry_of w u = Ok d ->
  run_mutation m (Some u) w
  = match mutate m d with
    | Throw e => (Some e, w)
    | Ok None => (None, w)
    | Ok (Some d') =>
        (None, persist u d' (with_builtins (touch m d (builtins w)) w))
    end.
Proof.
  intros E. destruct m as [p|p|en name|c|c p|c p]; cbn [run_mutation mutate touch].
  - by rewrite (savePlace_run _ _ _ _ E), with_builtins_id.
  - by rewrite (removeSavedPlace_run _ _ _ _ E), with_builtins_id.
  - unfold Local.createCollection.
    destruct name as [| |b|n|s]; try reflexivity.
    destruct (String.eqb (trim s) "") eqn:Hs; [reflexivity|].
    unfold bind. by rewrite getUserSavedData_run, E, with_builtins_id.
  - run_op Local.deleteCollection E. by rewrite with_builtins_id.
  - destruct (obj_lookup (collections d) (String_ c)) as [[col|name]|] eqn:Hc.
    + apply obj_lookup_Own in Hc.
      by rewrite (addPlaceToCollection_run _ _ _ _ _ _ E Hc), with_builtins_id.
    + by rewrite (addPlaceToCollection_builtin _ _ _ _ _ _ E Hc).
    + by rewrite (addPlaceToCollection_missing _ _ _ _ _ E Hc).
  - destruct (obj_lookup (collections d) (String_ c)) as [[col|name]|] eqn:Hc.
    + apply obj_lookup_Own in Hc.
      by rewrite (removePlaceFromCollection_run _ _ _ _ _ _ E Hc), with_builtins_id.
    + by rewrite (removePlaceFromCollection_builtin _ _ _ _ _ _ E Hc).
    + by rewrite (removePlaceFromCollection_missing _ _ _ _ _ E Hc).
Qed.

(** A stored entry that cannot be read makes every operation rethrow. *)
Lemma run_mutation_throws m u w e :
  entry_of w u = Throw e ->
  exists e', run_mutation m (Some u) w = (Some e', w).
Proof.
  intros E. destruct m as [p|p|en name|c|c p|c p]; cbn [run_mutation].
  - eexists. by rewrite (savePlace_throws _ _ _ _ E).
  - eexists. by rewrite (removeSavedPlace_throws _ _ _ _ E).
  - unfold Local.createCollection.
    destruct name as [| |b|n|s]; try by eexists.
    destruct (String.eqb (trim s) ""); [by eexists|].
    eexists. unfold bind. by rewrite getUserSavedData_run, E.
  - eexists. by run_op Local.deleteCollection E.
  - eexists. by rewrite (addPlaceToCollection_throws _ _ _ _ _ E).
  - eexists. by rewrite (removePlaceFromCollection_throws _ _ _ _ _ E).
Qed.

Lemma mutate_normal m d d' : mutate m d = Ok (Some d') -> normal d -> normal d'.
Proof.
  intros Hm Hd. destruct m as [p|p|en name|c|c p|c p]; cbn [mutate] in Hm.
  - injection Hm as <-. by apply normal_save.
  - injection Hm as <-. by apply normal_remove.
  - destruct name as [| |b|n|s]; try discriminate.
    destruct (String.eqb (trim s) "") eqn:Hs; [discriminate|].
    injection Hm as <-. apply normal_set; [done|].
    apply normal_created. by apply String.eqb_neq.
  - injection Hm as <-. by apply normal_delete.
  - destruct (obj_lookup (collections d) (String_ c)) as [[col|name]|] eqn:Hc;
      [| |discriminate]; injection Hm as <-.
    + apply obj_lookup_Own in Hc. apply normal_set; [done|].
      by eapply normal_updated.
    + done.
  - destruct (obj_lookup (collections d) (String_ c)) as [[col|name]|] eqn:Hc;
      [| |discriminate]; injection Hm as <-.
    + apply obj_lookup_Own in Hc. apply normal_set; [done|].
      by eapply normal_updated.
    + done.
Qed.

Lemma mutate_within m d d' :
  mutate m d = Ok (Some d') ->
  collections_within_items d -> collections_within_items d'.
Proof.
  intros Hm Hd. destruct m as [p|p|en name|c|c p|c p]; cbn [mutate] in Hm.
  - injection Hm as <-. by apply within_save.
  - injection Hm as <-. by apply within_remove.
  - destruct name as [| |b|n|s]; try discriminate.
    destruct (String.eqb (trim s) "") eqn:Hs; [discriminate|].
    injection Hm as <-. by apply within_created.
  - injection Hm as <-. by apply within_delete.
  - destruct (obj_lookup (collections d) (String_ c)) as [[col|name]|] eqn:Hc;
      [| |discriminate]; injection Hm as <-.
    + apply obj_lookup_Own in Hc. by apply within_add.
    + apply within_items; [done|]. intros x Hx. apply elem_of_pushed. by left.
  - destruct (obj_lookup (collections d) (String_ c)) as [[col|name]|] eqn:Hc;
      [| |discriminate]; injection Hm as <-.
    + apply obj_lookup_Own in Hc. by apply within_remove_from.
    + done.
Qed.

(** What any mutation does to the world of a logged-in user: it throws and
    writes nothing, or returns without writing (removing from a collection
    that does not exist), or it replaces the user's entry [d] by a normal
    entry [d'] that keeps the collections within the items if [d] did, and
    beside that changes at most the properties on the built-in objects. *)
Lemma run_mutation_cases (m : mutation) u w :
  (exists e, run_mutation m (Some u) w = (Some e, w)) \/
  (exists d, entry_of w u = Ok d /\ run_mutation m (Some u) w = (None, w)) \/
  (exists d d' h, entry_of w u = Ok d /\
     run_mutation m (Some u) w = (None, persist u d' (with_builtins h w)) /\
     normal d' /\
     (collections_within_items d -> collections_within_items d')).
Proof.
  destruct (entry_of w u) as [d|e] eqn:E.
  - pose proof (entry_of_normal _ _ _ E) as Hd.
    rewrite (run_mutation_mutate _ _ _ _ E).
    destruct (mutate m d) as [[d'|]|e] eqn:Hm.
    + right; right. exists d, d', (touch m d (builtins w)).
      split_and!; [done | done | by eapply mutate_normal | by eapply mutate_within].
    + right; left. by exists d.
    + left. by exists e.
  - left. by eapply run_mutation_throws.
Qed.

Lemma run_mutation_logged_out (m : mutation) w :
  run_mutation m None w = (Some (Error "Login required"), w).
Proof. by destruct m. Qed.

(** An entry that the operations wrote reads as written, whatever the
    built-in objects carry. *)
Lemma entry_of_stored (P : saved_data -> Prop) w u :
  P {| items := []; collections := [] |} ->
  stored_entries P w ->
  exists d, entry_of w u = Ok d /\ normal d /\ P d.
Proof.
  intros Hempty Hw. unfold entry_of.
  destruct (obj_get (saved_store w) (user_email u)) as [v|] eqn:Hv.
  - destruct (Hw _ _ Hv) as (d & -> & Hn & Hp). exists d.
    by rewrite normalizeEntry_roundtrip.
  - eexists. split_and!; [done | split; constructor | done].
Qed.

(** A property of entries that holds of the empty entry and that the
    mutations preserve holds of every entry stored in a reachable world. *)
Lemma reachable_stored (P : saved_data -> Prop) :
  P {| items := []; collections := [] |} ->
  (forall m d d', normal d -> mutate m d = Ok (Some d') -> P d -> P d') ->
  forall w, reachable w -> stored_entries P w.
Proof.
  intros Hempty Hstep w Hr.
  induction Hr as [w Hw|m [u0|] w Hr IH|w Hr IH].
  - intros k v. by rewrite Hw.
  - destruct (entry_of_stored P w u0 Hempty IH) as (d0 & E0 & Hn0 & Hp0).
    rewrite (run_mutation_mutate _ _ _ _ E0).
    destruct (mutate m d0) as [[d'|]|e] eqn:Hm; cbn [snd]; try exact IH.
    intros k v. rewrite saved_store_persist, saved_store_with_builtins.
    destruct (decide (k = user_email u0)) as [->|Hne].
    + rewrite obj_get_set_eq. intros [= <-]. exists d'.
      split_and!; [done | by eapply mutate_normal | by eapply Hstep].
    + rewrite obj_get_set_ne by done. apply IH.
  - rewrite run_mutation_logged_out. exact IH.
  - exact IH.
Qed.

Lemma reachable_invariant (P : saved_data -> Prop) :
  P {| items := []; collections := [] |} ->
  (forall m d d', normal d -> mutate m d = Ok (Some d') -> P d -> P d') ->
  forall w, reachable w -> forall u d, entry_of w u = Ok d -> P d.
Proof.
  intros Hempty Hstep w Hr u d E.
  destruct (entry_of_stored P w u Hempty (reachable_stored P Hempty Hstep w Hr))
    as (d0 & E0 & _ & Hp).
  rewrite E in E0. by injection E0 as ->.
Qed.

(** In a reachable world every user's entry can be read, is normal and has
    its collections within its items. *)
Lemma reachable_entries w :
  reachable w ->
  forall u, exists d,
    entry_of w u = Ok d /\ normal d /\ collections_within_items d.
Proof.
  intros Hr u. apply entry_of_stored.
  - intros k c x Hc. by apply elem_of_nil in Hc.
  - apply reachable_stored; [|by intros m d d' _; apply mutate_within|done].
    intros k c x Hc. by apply elem_of_nil in Hc.
Qed.

End preservation.

(** ** The sanitizer *)

Section sanitizer.

Lemma append_cons (x : ascii) (a b : string) :
  String x a +:+ b = String x (a +:+ b).
Proof. reflexivity. Qed.

Lemma append_assoc (a b c : string) : (a +:+ b) +:+ c = a +:+ (b +:+ c).
Proof.
  induction a as [|x a IH]; [done|]. by rewrite !append_cons, IH.
Qed.

Lemma replace_all_app (c : ascii) (r a b : string) :
  replace_all c r (a +:+ b) = replace_all c r a +:+ replace_all c r b.
Proof.
  induction a as [|x a IH]; [done|].
  rewrite append_cons. cbn [replace_all].
  destruct (Ascii.eqb x c); rewrite IH;
    [by rewrite append_assoc | by rewrite append_cons].
Qed.

Lemma occurs_app (c : ascii) (a b : string) :
  occurs c (a +:+ b) = occurs c a || occurs c b.
Proof.
  induction a as [|x a IH]; [done|].
  rewrite append_cons. cbn [occurs]. by rewrite IH, orb_assoc.
Qed.

Lemma escapeHtml_app (a b : string) :
  Sanitizer.escapeHtml (VStr (a +:+ b))
  = Sanitizer.escapeHtml (VStr a) +:+ Sanitizer.escapeHtml (VStr b).
Proof. unfold Sanitizer.escapeHtml. simpl. by rewrite !replace_all_app. Qed.

Lemma escapeHtml_char_clean (x : ascii) :
  forallb (fun c => negb (occurs c (Sanitizer.escapeHtml (VStr (String x EmptyString)))))
    markup_chars = true.
Proof.
  destruct x as [[] [] [] [] [] [] [] []]; vm_compute; reflexivity.
Qed.

Lemma escapeHtml_char_other (x : ascii) :
  x <> "&"%char -> ~ In x markup_chars ->
  Sanitizer.escapeHtml (VStr (String x EmptyString)) = String x EmptyString.
Proof.
  intros Hamp Hin.
  destruct x as [[] [] [] [] [] [] [] []]; try reflexivity;
    first [ by destruct Hamp | destruct Hin; vm_compute; tauto ].
Qed.

End sanitizer.

(** * The claims *)

(** C1. The saved-data layer of the local-storage module and that of the
    module backed by the auth service behave alike: on every user, world
    and arguments, each of the eleven exported operations returns the same
    outcome and leaves the same world in both modules. *)
Theorem saved_layer_duplicated
    (user : option user) (e : entropy) (name collectionId placeId : jsval)
    (w : world) :
  Local.getSavedPlaceIds user w = Remote.getSavedPlaceIds user w /\
  Local.isPlaceSaved user placeId w = Remote.isPlaceSaved user placeId w /\
  Local.savePlace user placeId w = Remote.savePlace user placeId w /\
  Local.removeSavedPlace user placeId w = Remote.removeSavedPlace user placeId w /\
  Local.getCollections user w = Remote.getCollections user w /\
  Local.createCollection e user name w = Remote.createCollection e user name w /\
  Local.deleteCollection user collectionId w
    = Remote.deleteCollection user collectionId w /\
  Local.addPlaceToCollection user collectionId placeId w
    = Remote.addPlaceToCollection user collectionId placeId w /\
  Local.removePlaceFromCollection user collectionId placeId w
    = Remote.removePlaceFromCollection user collectionId placeId w /\
  Local.getCollectionPlaceIds user collectionId w
    = Remote.getCollectionPlaceIds user collectionId w /\
  Local.isPlaceInCollection user collectionId placeId w
    = Remote.isPlaceInCollection user collectionId placeId w.
Proof.
  destruct user as [u|]; repeat split.
Qed.

(** C9. Without a user the saved layer fails closed: each of the six
    writing operations throws the error "Login required" and leaves the
    world, local storage included, exactly as it was; the reading
    operations return an empty array or [false] and do not throw. *)
Theorem logged_out_fails_closed
    (e : entropy) (name collectionId placeId : jsval) (w : world) :
  Local.savePlace None placeId w = (Throw (Error "Login required"), w) /\
  Local.removeSavedPlace None placeId w = (Throw (Error "Login required"), w) /\
  Local.createCollection e None name w = (Throw (Error "Login required"), w) /\
  Local.deleteCollection None collectionId w
    = (Throw (Error "Login required"), w) /\
  Local.addPlaceToCollection None collectionId placeId w
    = (Throw (Error "Login required"), w) /\
  Local.removePlaceFromCollection None collectionId placeId w
    = (Throw (Error "Login required"), w) /\
  Local.getSavedPlaceIds None w = (Ok [], w) /\
  Local.getCollections None w = (Ok [], w) /\
  Local.isPlaceSaved None placeId w = (Ok false, w) /\
  Local.isPlaceInCollection None collectionId placeId w = (Ok false, w) /\
  Local.getCollectionPlaceIds None collectionId w = (Ok [], w).
Proof.
  unfold Local.savePlace, Local.removeSavedPlace, Local.createCollection,
    Local.deleteCollection, Local.addPlaceToCollection,
    Local.removePlaceFromCollection, throw, ret.
  repeat split.
Qed.

(** C6. The store is keyed by email and an operation touches the caller's
    entry only: whatever writing operation user [u] invokes, on whatever
    world, the store read afterwards holds under every key other than
    [u]'s email what it held before. *)
Theorem other_entries_untouched (m : mutation) (u : user) (w : world) (k : string) :
  k <> user_email u ->
  obj_get (saved_store (snd (run_mutation m (Some u) w))) k
  = obj_get (saved_store w) k.
Proof.
  intros Hk.
  destruct (run_mutation_cases m u w)
    as [[e ->]|[(d & _ & ->)|(d & d' & h & _ & -> & _)]]; simpl; try done.
  by apply (persist_frame u d' (with_builtins h w)).
Qed.

Lemma other_entries_untouched_witness :
  obj_get
    (saved_store
       (snd (run_mutation (RemoveSavedPlace (VStr "p1")) (Some alice) sample_world)))
    "bob@example.com"
  = obj_get (saved_store sample_world) "bob@example.com".
Proof. apply other_entries_untouched. discriminate. Defined.



(** C4. [removeSavedPlace] keeps the books on both levels.  For a logged-in
    user whose stored entry reads as [d], the call returns the new items
    and the entry read afterwards, [d'], has the string form of the place
    id neither among its items nor in any collection; the items and each
    collection's place ids are what they were with that string struck
    out: a subsequence of the old list with the same other members; and
    the collections keep their keys, ids and names.  (When the stored entry
    cannot be read, the call rethrows and writes nothing.) *)
Theorem removeSavedPlace_bookkeeping (u : user) (placeId : jsval) (w : world) :
  (forall e, entry_of w u = Throw e ->
     Local.removeSavedPlace (Some u) placeId w = (Throw e, w)) /\
  (forall d, entry_of w u = Ok d ->
     exists w' d',
       Local.removeSavedPlace (Some u) placeId w = (Ok (items d'), w') /\
       entry_of w' u = Ok d' /\
       (JStr (String_ placeId) ∉ items d') /\
       (items d' `sublist_of` items d) /\
       (forall x, x <> JStr (String_ placeId) -> x ∈ items d' <-> x ∈ items d) /\
       List.map fst (collections d') = List.map fst (collections d) /\
       (forall k c', obj_get (collections d') k = Some c' ->
          JStr (String_ placeId) ∉ placeIds c') /\
       (forall k c, obj_get (collections d) k = Some c ->
          exists c',
            obj_get (collections d') k = Some c' /\
            col_id c' = col_id c /\ col_name c' = col_name c /\
            (placeIds c' `sublist_of` placeIds c) /\
            (forall x, x <> JStr (String_ placeId) ->
               x ∈ placeIds c' <-> x ∈ placeIds c))).
Proof.
  split; [intros e E; by apply removeSavedPlace_throws|].
  intros d E. pose proof (entry_of_normal _ _ _ E) as Hd.
  set (t := JStr (String_ placeId)).
  exists (persist u {| items := filter_ne t (items d);
                       collections := List.map (remove_from t) (collections d) |} w),
    {| items := filter_ne t (items d);
       collections := List.map (remove_from t) (collections d) |}.
  split_and!; cbn [items collections].
  - by rewrite (removeSavedPlace_run _ _ _ _ E).
  - by apply entry_of_persist, normal_remove.
  - apply filter_ne_absent.
  - apply filter_ne_sublist.
  - intros x Hx. by apply filter_ne_other.
  - by rewrite map_map.
  - intros k c'. rewrite obj_get_remove_from.
    destruct (obj_get (collections d) k) as [c|]; simpl; [|done].
    intros [= <-]. apply filter_ne_absent.
  - intros k c Hc. rewrite obj_get_remove_from, Hc. simpl.
    eexists. split_and!; try done; simpl.
    + apply filter_ne_sublist.
    + intros x Hx. by apply filter_ne_other.
Qed.

Lemma removeSavedPlace_bookkeeping_witness :
  exists w' d',
    Local.removeSavedPlace (Some alice) (VStr "p1") sample_world
      = (Ok (items d'), w') /\
    entry_of w' alice = Ok d' /\
    items d' = [JNum 7; JStr "p2"] /\
    obj_get (collections d') "col-a"
      = Some {| col_id := JStr "col-a"; col_name := JStr "Silk";
                placeIds := [JStr "p2"] |}.
Proof.
  destruct (proj2 (removeSavedPlace_bookkeeping alice (VStr "p1") sample_world)
              sample_data sample_entry) as (w' & d' & Hrun & Hread & _).
  exists w', d'. split; [done|]. split; [done|].
  vm_compute in Hrun. injection Hrun as _ <-.
  vm_compute in Hread. injection Hread as <-. split; reflexivity.
Defined.

(** C5 does not hold of the code where the collection id is the name of
    a member of [Object.prototype].  Alice has the one collection
    "col-a" and none under "constructor"; all the same
    [addPlaceToCollection(alice, "constructor", "p9")] does not throw
    "Collection not found.": the lookup finds the inherited [constructor],
    and the call appends "p9" to the items, leaves it as place ids on that
    built-in object, writes the store and dispatches the saved-change
    event.  Afterwards Alice's collections are what they were, yet
    [isPlaceInCollection] answers [true] for "constructor". *)
Theorem addPlaceToCollection_inherited_name :
  entry_of sample_world alice = Ok sample_data /\
  obj_get (collections sample_data) "constructor" = None /\
  exists w',
    Local.addPlaceToCollection (Some alice) (VStr "constructor") (VStr "p9")
      sample_world
    = (Ok (Builtin "constructor"), w') /\
    entry_of w' alice
    = Ok {| items := [JStr "p1"; JNum 7; JStr "p2"; JStr "p9"];
            collections := collections sample_data |} /\
    dispatched w' = [SavedChange "alice@example.com"] /\
    builtins w' = {[ "constructor" := [JStr "p9"] ]} /\
    Local.getCollections (Some alice) w'
    = (Ok (Object_values (collections sample_data)), w') /\
    Local.isPlaceInCollection (Some alice) (VStr "constructor") (VStr "p9") w'
    = (Ok true, w').
Proof.
  split; [exact sample_entry|]. split; [reflexivity|].
  exists (snd (Local.addPlaceToCollection (Some alice) (VStr "constructor")
                 (VStr "p9") sample_world)).
  split_and!; vm_compute; reflexivity.
Qed.






(** C8. [escapeHtml] neutralises markup.  Its result on a string contains
    none of the characters <, >, double quote, apostrophe and slash.  It
    works character by character (the result on a concatenation is the
    concatenation of the results): an ampersand is rendered as [&amp;], the
    five markup characters as their entities, and every other character as
    itself.  On [null] and on [undefined] it returns the empty string. *)
Theorem escapeHtml_neutralises (s s1 s2 : string) (x : ascii) :
  Forall (fun c => occurs c (Sanitizer.escapeHtml (VStr s)) = false) markup_chars /\
  Sanitizer.escapeHtml (VStr (s1 +:+ s2))
    = Sanitizer.escapeHtml (VStr s1) +:+ Sanitizer.escapeHtml (VStr s2) /\
  Sanitizer.escapeHtml (VStr "&") = "&amp;" /\
  Sanitizer.escapeHtml (VStr "<") = "&lt;" /\
  Sanitizer.escapeHtml (VStr ">") = "&gt;" /\
  Sanitizer.escapeHtml (VStr (String Sanitizer.quot EmptyString)) = "&quot;" /\
  Sanitizer.escapeHtml (VStr "'") = "&#039;" /\
  Sanitizer.escapeHtml (VStr "/") = "&#x2F;" /\
  (x <> "&"%char -> ~ In x markup_chars ->
     Sanitizer.escapeHtml (VStr (String x EmptyString)) = String x EmptyString) /\
  Sanitizer.escapeHtml VNull = "" /\
  Sanitizer.escapeHtml VUndefined = "".
Proof.
  split; [|split; [apply escapeHtml_app|]].
  - apply Forall_forall. intros c Hc.
    induction s as [|y s IH].
    + reflexivity.
    + change (String y s) with (String y EmptyString +:+ s).
      rewrite escapeHtml_app, occurs_app, IH, orb_false_r.
      pose proof (escapeHtml_char_clean y) as Hy.
      rewrite forallb_forall in Hy. apply negb_true_iff, Hy.
      by apply list_elem_of_In.
  - split_and!; try reflexivity. apply escapeHtml_char_other.
Qed.

Lemma escapeHtml_neutralises_witness :
  Sanitizer.escapeHtml (VStr "a") = "a" /\
  Sanitizer.escapeHtml (VStr "<a href='x'>Q&A</a>")
  = "&lt;a href=&#039;x&#039;&gt;Q&amp;A&lt;&#x2F;a&gt;".
Proof.
  split; [|reflexivity].
  apply (proj1 (proj2 (proj2 (proj2 (proj2 (proj2 (proj2 (proj2 (proj2
           (escapeHtml_neutralises "" "" "" "a"%char)))))))))).
  - discriminate.
  - unfold markup_chars. simpl. intros H.
    repeat (destruct H as [H|H]; [discriminate H|]). exact H.
Defined.

(** C2, as stated, fails: when the module backed by the auth service
    stores a user's data, no request goes to the service; the data goes to
    local storage, and is read back from there. *)
Lemma saved_store_remote_counterexample :
  let w' := snd (Remote.setUserSavedData (Some alice) sample_data no_storage) in
  requests no_storage = [] /\
  requests w' = [] /\
  localStorage w' !! Remote.SAVED_KEY
    = Some (Doc [("alice@example.com", data_to_json sample_data)]) /\
  Remote.getUserSavedData (Some alice) w' = (Ok sample_data, w').
Proof. cbv zeta. split_and!; vm_compute; reflexivity. Qed.

(** C2, amended.  The module backed by the auth service keeps the saved
    store in the browser's local storage, under the same key and in the
    same shape as the local-storage module.  Its [getSavedStore],
    [setSavedStore], [getUserSavedData] and [setUserSavedData] send no
    request to the service.  The writers replace what local storage holds
    under the saved-places key, by the given store and by the old store
    with the user's entry replaced; the readers leave the world as it is,
    and what they return depends on local storage (and, for an entry with
    a collection without place ids of its own, on [Object.prototype])
    alone; a store that was written is read back, and so is a normal
    entry.  Each of the four functions does what its namesake in the
    local-storage module does. *)
Theorem saved_store_kept_in_local_storage
    (u : user) (d : saved_data) (store : list (string * json)) (w w2 : world) :
  let w' := snd (Remote.setUserSavedData (Some u) d w) in
  Remote.SAVED_KEY = "seamline_saved_places" /\
  Remote.SAVED_KEY = Local.SAVED_KEY /\
  requests (snd (Remote.getSavedStore w)) = requests w /\
  requests (snd (Remote.setSavedStore store w)) = requests w /\
  requests (snd (Remote.getUserSavedData (Some u) w)) = requests w /\
  requests w' = requests w /\
  localStorage (snd (Remote.setSavedStore store w))
    = <[Remote.SAVED_KEY := Doc store]> (localStorage w) /\
  localStorage w'
    = <[Remote.SAVED_KEY :=
          Doc (obj_set (saved_store w) (user_email u) (data_to_json d))]>
        (localStorage w) /\
  snd (Remote.getSavedStore w) = w /\
  snd (Remote.getUserSavedData (Some u) w) = w /\
  (localStorage w2 = localStorage w ->
     fst (Remote.getSavedStore w2) = fst (Remote.getSavedStore w)) /\
  (localStorage w2 = localStorage w -> builtins w2 = builtins w ->
     fst (Remote.getUserSavedData (Some u) w2)
     = fst (Remote.getUserSavedData (Some u) w)) /\
  fst (Remote.getSavedStore (snd (Remote.setSavedStore store w))) = Ok store /\
  (normal d -> fst (Remote.getUserSavedData (Some u) w') = Ok d) /\
  Remote.getSavedStore w = Local.getSavedStore w /\
  Remote.setSavedStore store w = Local.setSavedStore store w /\
  Remote.getUserSavedData (Some u) w = Local.getUserSavedData (Some u) w /\
  Remote.setUserSavedData (Some u) d w = Local.setUserSavedData (Some u) d w.
Proof.
  cbv zeta. rewrite remote_setUserSavedData_run, !remote_getUserSavedData_run.
  split_and!; try reflexivity.
  - intros H. unfold Remote.getSavedStore, bind, getItem, ret. cbn [fst].
    by rewrite H.
  - intros H Hb. cbn [fst]. unfold entry_of, saved_store. by rewrite H, Hb.
  - unfold Remote.getSavedStore, Remote.setSavedStore, bind, getItem, setItem, ret.
    cbn [fst snd localStorage]. by rewrite lookup_insert_eq.
  - intros H. cbn [fst snd]. by apply entry_of_persist.
Qed.

Lemma saved_store_kept_in_local_storage_witness :
  fst (Remote.getUserSavedData (Some alice)
         (snd (Remote.setUserSavedData (Some alice) sample_data sample_world)))
  = Ok sample_data /\
  requests (snd (Remote.setUserSavedData (Some alice) sample_data sample_world))
  = [].
Proof.
  pose proof (saved_store_kept_in_local_storage alice sample_data [] sample_world
                sample_world)
    as (_ & _ & _ & _ & _ & Hreq & _ & _ & _ & _ & _ & _ & _ & Hread & _).
  split.
  - apply Hread. by apply (entry_of_normal alice sample_world), sample_entry.
  - exact Hreq.
Defined.

(** * Further properties of the saved layer *)

Section reading.
Implicit Types (u : user) (w : world) (d : saved_data).
Implicit Types (h : gmap string (list json)).

Lemma getSavedPlaceIds_run u w d :
  entry_of w u = Ok d -> Local.getSavedPlaceIds (Some u) w = (Ok (items d), w).
Proof. intros E. by run_op Local.getSavedPlaceIds E. Qed.

Lemma isPlaceSaved_run u (p : jsval) w d :
  entry_of w u = Ok d ->
  Local.isPlaceSaved (Some u) p w
  = (Ok (includes (items d) (JStr (String_ p))), w).
Proof.
  intros E. unfold Local.isPlaceSaved, bind.
  by rewrite (getSavedPlaceIds_run _ _ _ E).
Qed.

Lemma getCollections_run u w d :
  entry_of w u = Ok d ->
  Local.getCollections (Some u) w = (Ok (Object_values (collections d)), w).
Proof. intros E. by run_op Local.getCollections E. Qed.

Lemma getCollectionPlaceIds_run u (c : jsval) w d :
  entry_of w u = Ok d ->
  Local.getCollectionPlaceIds (Some u) c w
  = (Ok (place_ids_at d (builtins w) (String_ c)), w).
Proof.
  intros E. run_op Local.getCollectionPlaceIds E. unfold place_ids_at.
  destruct (obj_lookup (collections d) (String_ c)) as [[col|name]|]; try done.
  destruct (default_getPlaceIds name w) as (old & -> & ->). reflexivity.
Qed.


Lemma isPlaceInCollection_run u (c p : jsval) w d :
  entry_of w u = Ok d ->
  Local.isPlaceInCollection (Some u) c p w
  = (Ok (includes (place_ids_at d (builtins w) (String_ c)) (JStr (String_ p))), w).
Proof.
  intros E. unfold Local.isPlaceInCollection, bind.
  by rewrite (getCollectionPlaceIds_run _ _ _ _ E).
Qed.





End reading.











Section mutations.
Implicit Types (u : user) (w : world) (d : saved_data) (m : mutation).

Lemma existsb_filter_ne (x t : json) (l : list json) :
  existsb (same_value x) l = false ->
  existsb (same_value x) (filter_ne t l) = false.
Proof.
  induction l as [|a l IH]; simpl; [done|].
  rewrite orb_false_iff. intros [Ha Hl].
  destruct (negb (same_value a t)); simpl; [by rewrite Ha, IH | by apply IH].
Qed.

Lemma distinct_filter_ne (t : json) (l : list json) :
  distinct l = true -> distinct (filter_ne t l) = true.
Proof.
  induction l as [|a l IH]; simpl; [done|].
  rewrite andb_true_iff, negb_true_iff. intros [Ha Hl].
  destruct (negb (same_value a t)); simpl; [|by apply IH].
  by rewrite existsb_filter_ne, IH.
Qed.

Lemma includes_existsb (l : list json) (x : json) :
  includes l x = existsb (same_value x) l.
Proof.
  unfold includes. induction l as [|a l IH]; simpl; [done|].
  by rewrite IH, (same_value_sym a x).
Qed.

(** The mutations never put the same value twice among the items. *)
Lemma mutate_distinct m d d' :
  mutate m d = Ok (Some d') ->
  distinct (items d) = true -> distinct (items d') = true.
Proof.
  intros Hm Hd. destruct m as [p|p|en name|c|c p|c p]; cbn [mutate] in Hm.
  - injection Hm as <-. apply set_add_distinct, new_Set_distinct.
  - injection Hm as <-. by apply distinct_filter_ne.
  - destruct name as [| |b|n|s]; try discriminate.
    destruct (String.eqb (trim s) ""); [discriminate|]. by injection Hm as <-.
  - by injection Hm as <-.
  - destruct (obj_lookup (collections d) (String_ c)) as [hit|]; [|discriminate].
    injection Hm as <-. cbn [items].
    destruct (includes (items d) (JStr (String_ p))) eqn:Hi; [done|].
    rewrite includes_existsb in Hi. by rewrite distinct_snoc, Hd, Hi.
  - destruct (obj_lookup (collections d) (String_ c)) as [[col|name]|];
      [| |discriminate]; by injection Hm as <-.
Qed.


End mutations.




(** * Further properties of the sanitizer *)

Section escaping.

Lemma escapeHtml_cons (c : ascii) (s : string) :
  Sanitizer.escapeHtml (VStr (String c s))
  = Sanitizer.escapeHtml (VStr (String c EmptyString))
    +:+ Sanitizer.escapeHtml (VStr s).
Proof. by rewrite <- escapeHtml_app. Qed.

Lemma unescape_head_escapeHtml (c : ascii) (rest : string) :
  unescape_head (Sanitizer.escapeHtml (VStr (String c EmptyString)) +:+ rest)
  = Some (c, rest).
Proof. destruct c as [[] [] [] [] [] [] [] []]; reflexivity. Qed.

End escaping.

(** X7. [escapeHtml] loses nothing: two strings with the same escaped form
    are the same string.  (The ampersand is escaped too, so an entity in
    the input cannot be mistaken for an escaped character.) *)
Theorem escapeHtml_injective (s t : string) :
  Sanitizer.escapeHtml (VStr s) = Sanitizer.escapeHtml (VStr t) -> s = t.
Proof.
  revert t. induction s as [|c s IH]; intros [|d t] H.
  - reflexivity.
  - rewrite escapeHtml_cons in H. apply (f_equal unescape_head) in H.
    by rewrite unescape_head_escapeHtml in H.
  - rewrite escapeHtml_cons in H. apply (f_equal unescape_head) in H.
    by rewrite unescape_head_escapeHtml in H.
  - rewrite (escapeHtml_cons c s), (escapeHtml_cons d t) in H.
    apply (f_equal unescape_head) in H.
    rewrite !unescape_head_escapeHtml in H. injection H as -> H.
    by rewrite (IH t H).
Qed.

Lemma escapeHtml_injective_witness : "Q&A <b>" = "Q&A <b>".
Proof. apply escapeHtml_injective. reflexivity. Defined.

Section attributes.

Lemma sanitizeAttribute_str (s : string) :
  Sanitizing.sanitizeAttribute (VStr s)
  = replace_all "/" "&#x2F;"
      (replace_all ">" "&gt;"
         (replace_all "<" "&lt;"
            (replace_all "'" "&#x27;"
               (replace_all Sanitizer.quot "&quot;" s)))).
Proof. by destruct s. Qed.

Lemma sanitizeAttribute_app (a b : string) :
  Sanitizing.sanitizeAttribute (VStr (a +:+ b))
  = Sanitizing.sanitizeAttribute (VStr a) +:+ Sanitizing.sanitizeAttribute (VStr b).
Proof. rewrite !sanitizeAttribute_str. by rewrite !replace_all_app. Qed.

Lemma sanitizeAttribute_char_clean (x : ascii) :
  forallb
    (fun c => negb (occurs c (Sanitizing.sanitizeAttribute (VStr (String x EmptyString)))))
    markup_chars = true.
Proof. destruct x as [[] [] [] [] [] [] [] []]; vm_compute; reflexivity. Qed.

Lemma sanitizeAttribute_char_other (x : ascii) :
  ~ In x markup_chars ->
  Sanitizing.sanitizeAttribute (VStr (String x EmptyString)) = String x EmptyString.
Proof.
  intros Hin.
  destruct x as [[] [] [] [] [] [] [] []]; try reflexivity;
    destruct Hin; vm_compute; tauto.
Qed.

Lemma sanitizeAttribute_str_clean (s : string) (c : ascii) :
  In c markup_chars -> occurs c (Sanitizing.sanitizeAttribute (VStr s)) = false.
Proof.
  intros Hc. induction s as [|y s IH]; [reflexivity|].
  change (String y s) with (String y EmptyString +:+ s).
  rewrite sanitizeAttribute_app, occurs_app, IH, orb_false_r.
  pose proof (sanitizeAttribute_char_clean y) as Hy.
  rewrite forallb_forall in Hy. by apply negb_true_iff, Hy.
Qed.

Lemma sanitizeAttribute_val (v : jsval) :
  Sanitizing.sanitizeAttribute v
  = if Sanitizing.truthy_val v then Sanitizing.sanitizeAttribute (VStr (String_ v))
    else "".
Proof.
  rewrite sanitizeAttribute_str. unfold Sanitizing.sanitizeAttribute.
  by destruct (Sanitizing.truthy_val v).
Qed.

End attributes.

(** X8. [sanitizeAttribute] makes a value safe inside a quoted attribute:
    whatever it is given, its result contains none of the characters <, >,
    double quote, apostrophe and slash.  A falsy value, the number zero
    included, gives the empty string.  It works character by character and
    leaves every other character alone, the ampersand too. *)
Theorem sanitizeAttribute_clean (v : jsval) (s1 s2 : string) (x : ascii) :
  Forall (fun c => occurs c (Sanitizing.sanitizeAttribute v) = false) markup_chars /\
  (Sanitizing.truthy_val v = false -> Sanitizing.sanitizeAttribute v = "") /\
  Sanitizing.sanitizeAttribute (VStr (s1 +:+ s2))
    = Sanitizing.sanitizeAttribute (VStr s1)
      +:+ Sanitizing.sanitizeAttribute (VStr s2) /\
  (~ In x markup_chars ->
     Sanitizing.sanitizeAttribute (VStr (String x EmptyString))
     = String x EmptyString).
Proof.
  split_and!.
  - apply Forall_forall. intros c Hc%list_elem_of_In.
    rewrite sanitizeAttribute_val.
    destruct (Sanitizing.truthy_val v); [by apply sanitizeAttribute_str_clean|].
    reflexivity.
  - intros H. rewrite sanitizeAttribute_val. by rewrite H.
  - apply sanitizeAttribute_app.
  - apply sanitizeAttribute_char_other.
Qed.

Lemma sanitizeAttribute_clean_witness :
  Sanitizing.sanitizeAttribute (VNum 0) = "" /\
  Sanitizing.sanitizeAttribute (VStr "&") = "&".
Proof.
  pose proof (sanitizeAttribute_clean (VNum 0) "" "" "&"%char) as (_ & H0 & _ & Hamp).
  split; [by apply H0|]. apply Hamp.
  unfold markup_chars. simpl. intros H.
  repeat (destruct H as [H|H]; [discriminate H|]). exact H.
Defined.

Section tags.

Lemma has_tag_has_gt (s : string) :
  Sanitizing.has_gt s = false -> Sanitizing.has_tag s = false.
Proof.
  induction s as [|c s IH]; simpl; [done|].
  rewrite orb_false_iff. intros [_ Hs]. by rewrite Hs, IH, andb_false_r.
Qed.

Lemma remove_tags_clean (s : string) :
  Sanitizing.has_tag (Sanitizing.remove_tags s) = false /\
  Sanitizing.has_tag (Sanitizing.inside_tag s) = false.
Proof.
  induction s as [|c s [IHr IHi]]; [done|]. split.
  - cbn [Sanitizing.remove_tags]. destruct (Ascii.eqb c "<") eqn:Hc.
    + destruct (Sanitizing.has_gt s) eqn:Hgt; [done|].
      cbn [Sanitizing.has_tag]. by rewrite Hgt, andb_false_r, has_tag_has_gt.
    + cbn [Sanitizing.has_tag]. by rewrite Hc, IHr.
  - cbn [Sanitizing.inside_tag]. by destruct (Ascii.eqb c ">").
Qed.

Lemma remove_tags_id (s : string) :
  Sanitizing.has_tag s = false -> Sanitizing.remove_tags s = s.
Proof.
  induction s as [|c s IH]; [done|].
  cbn [Sanitizing.has_tag Sanitizing.remove_tags].
  rewrite orb_false_iff. intros [Hc Hs].
  destruct (Ascii.eqb c "<"); simpl in Hc.
  - by rewrite Hc.
  - by rewrite IH.
Qed.

Lemma remove_tags_length (s : string) :
  String.length (Sanitizing.remove_tags s) <= String.length s /\
  String.length (Sanitizing.inside_tag s) <= String.length s.
Proof.
  induction s as [|c s [IHr IHi]]; [done|]. split.
  - cbn [Sanitizing.remove_tags]. destruct (Ascii.eqb c "<").
    + destruct (Sanitizing.has_gt s); simpl; lia.
    + simpl. lia.
  - cbn [Sanitizing.inside_tag]. destruct (Ascii.eqb c ">"); simpl; lia.
Qed.

Lemma stripHtmlTags_str (s : string) :
  Sanitizing.stripHtmlTags (VStr s) = Sanitizing.remove_tags s.
Proof. by destruct s. Qed.

End tags.

(** X9. [stripHtmlTags] leaves no tag behind: in its result no [<] has a
    [>] after it, so the pattern it removes matches nowhere, also when
    tags were nested or split to survive one pass.  Stripping the result
    again changes nothing, a string without a tag is returned as it is, the
    result is never longer than the input, and a falsy value gives the
    empty string. *)
Theorem stripHtmlTags_no_tag (v : jsval) (s : string) :
  Sanitizing.has_tag (Sanitizing.stripHtmlTags v) = false /\
  Sanitizing.stripHtmlTags (VStr (Sanitizing.stripHtmlTags v))
    = Sanitizing.stripHtmlTags v /\
  (Sanitizing.has_tag s = false -> Sanitizing.stripHtmlTags (VStr s) = s) /\
  String.length (Sanitizing.stripHtmlTags (VStr s)) <= String.length s /\
  (Sanitizing.truthy_val v = false -> Sanitizing.stripHtmlTags v = "").
Proof.
  assert (Sanitizing.has_tag (Sanitizing.stripHtmlTags v) = false) as Hclean.
  { unfold Sanitizing.stripHtmlTags.
    destruct (Sanitizing.truthy_val v); simpl; [apply remove_tags_clean | done]. }
  split_and!.
  - done.
  - rewrite stripHtmlTags_str. by apply remove_tags_id.
  - intros H. rewrite stripHtmlTags_str. by apply remove_tags_id.
  - rewrite stripHtmlTags_str. apply remove_tags_length.
  - intros H. unfold Sanitizing.stripHtmlTags. by rewrite H.
Qed.

Lemma stripHtmlTags_no_tag_witness :
  Sanitizing.stripHtmlTags (VStr "a > b") = "a > b" /\
  Sanitizing.stripHtmlTags (VStr "<scr<script>ipt>alert(1)</script> <b>Hi</b> 1 < 2")
  = "ipt>alert(1) Hi 1 < 2".
Proof.
  split; [|reflexivity].
  by apply (proj1 (proj2 (proj2 (stripHtmlTags_no_tag VNull "a > b")))).
Defined.

Section tag_text.

Lemma has_gt_app (a b : string) :
  Sanitizing.has_gt (a +:+ b) = Sanitizing.has_gt a || Sanitizing.has_gt b.
Proof.
  induction a as [|c a IH]; [done|].
  rewrite append_cons. cbn [Sanitizing.has_gt]. by rewrite IH, orb_assoc.
Qed.

Lemma inside_tag_app (t b : string) :
  occurs ">" t = false ->
  Sanitizing.inside_tag (t +:+ String ">" b) = Sanitizing.remove_tags b.
Proof.
  induction t as [|c t IH]; [done|].
  cbn [occurs]. rewrite orb_false_iff. intros [Hc Ht].
  rewrite append_cons. cbn [Sanitizing.inside_tag]. by rewrite Hc, IH.
Qed.

Lemma remove_tags_app (a s : string) :
  occurs "<" a = false ->
  Sanitizing.remove_tags (a +:+ s) = a +:+ Sanitizing.remove_tags s.
Proof.
  induction a as [|c a IH]; [done|].
  cbn [occurs]. rewrite orb_false_iff. intros [Hc Ha].
  rewrite !append_cons. cbn [Sanitizing.remove_tags]. by rewrite Hc, IH.
Qed.

End tag_text.

(** X10. [stripHtmlTags] removes the tags and keeps the text around them:
    on a text [a] without [<], followed by a tag [<t>] whose inside [t] has
    no [>], followed by any rest, the result is [a] followed by the
    stripped rest.  So what stands between an opening and a closing tag, a
    script's source included, stays in the result. *)
Theorem stripHtmlTags_keeps_text (a t rest : string) :
  occurs "<" a = false ->
  occurs ">" t = false ->
  Sanitizing.stripHtmlTags (VStr (a +:+ String "<" (t +:+ String ">" rest)))
  = a +:+ Sanitizing.stripHtmlTags (VStr rest).
Proof.
  intros Ha Ht. rewrite !stripHtmlTags_str, remove_tags_app by done.
  f_equal. cbn [Sanitizing.remove_tags]. rewrite Ascii.eqb_refl.
  rewrite has_gt_app. cbn [Sanitizing.has_gt]. rewrite Ascii.eqb_refl.
  rewrite orb_true_r. by apply inside_tag_app.
Qed.

Lemma stripHtmlTags_keeps_text_witness :
  Sanitizing.stripHtmlTags (VStr "Hello <script>alert(1)</script>")
  = "Hello alert(1)".
Proof.
  exact (stripHtmlTags_keeps_text "Hello " "script" "alert(1)</script>"
           eq_refl eq_refl).
Defined.

Section trimming.

Lemma trim_end_cons (c : ascii) (s : string) :
  is_space c = false -> trim_end (String c s) = String c (trim_end s).
Proof. intros H. cbn [trim_end]. rewrite H. by destruct (trim_end s). Qed.

Lemma trim_end_idem (s : string) : trim_end (trim_end s) = trim_end s.
Proof.
  induction s as [|c s IH]; [done|]. cbn [trim_end].
  destruct (trim_end s) as [|a t] eqn:Ht.
  - destruct (is_space c) eqn:Hc; [done|]. cbn [trim_end]. by rewrite Hc.
  - cbn [trim_end]. cbn [trim_end] in IH. by rewrite IH.
Qed.

(** The string is empty or starts with a character that is no space. *)
Lemma trim_start_fixed (s : string) :
  trim_start (trim_start s) = trim_start s.
Proof.
  induction s as [|c s IH]; [done|]. cbn [trim_start].
  destruct (is_space c) eqn:Hc; [done|]. cbn [trim_start]. by rewrite Hc.
Qed.

Lemma trim_start_trim_end (s : string) :
  trim_start s = s -> trim_start (trim_end s) = trim_end s.
Proof.
  destruct s as [|c s]; [done|]. cbn [trim_start].
  destruct (is_space c) eqn:Hc.
  - intros H. apply (f_equal String.length) in H. simpl in H.
    assert (forall t, String.length (trim_start t) <= String.length t) as Hle.
    { clear. induction t as [|a t IH]; simpl; [done|].
      destruct (is_space a); simpl; lia. }
    specialize (Hle s). lia.
  - intros _. rewrite trim_end_cons by done. cbn [trim_start]. by rewrite Hc.
Qed.

Lemma trim_idem (s : string) : trim (trim s) = trim s.
Proof.
  unfold trim.
  rewrite (trim_start_trim_end (trim_start s)) by apply trim_start_fixed.
  apply trim_end_idem.
Qed.

Lemma trim_https (s : string) : trim ("https://" +:+ trim s) = "https://" +:+ trim s.
Proof.
  unfold trim at 1.
  change ("https://" +:+ trim s)
    with (String "h" (String "t" (String "t" (String "p" (String "s"
            (String ":" (String "/" (String "/" (trim s))))))))).
  cbn [trim_start]. change (is_space "h") with false. cbn iota.
  rewrite !trim_end_cons by reflexivity.
  unfold trim at 1. by rewrite trim_end_idem.
Qed.

End trimming.

(** X11. [sanitizeUrl] never returns a URL with a dangerous protocol.  Its
    result is the empty string or starts, whatever the case of the letters,
    with one of [http:], [https:], [mailto:], [tel:] and [sms:], and never
    with [javascript:], [data:], [vbscript:], [file:] or [about:].  A falsy
    value gives the empty string without a warning; a trimmed input with a
    dangerous protocol gives the empty string and one warning; an input
    with a safe protocol is returned trimmed; anything else is prefixed
    with [https://]. *)
Theorem sanitizeUrl_safe (url : jsval) :
  let r := fst (Sanitizing.sanitizeUrl url) in
  let urlStr := trim (String_ url) in
  (r = "" \/ Sanitizing.safeProtocols r = true) /\
  Sanitizing.dangerousProtocols r = false /\
  (Sanitizing.truthy_val url = false -> Sanitizing.sanitizeUrl url = ("", [])) /\
  (Sanitizing.truthy_val url = true ->
   Sanitizing.dangerousProtocols urlStr = true ->
   Sanitizing.sanitizeUrl url
   = ("", [Sanitizing.BlockedProtocol (String.substring 0 50 urlStr)])) /\
  (Sanitizing.truthy_val url = true ->
   Sanitizing.dangerousProtocols urlStr = false ->
   Sanitizing.sanitizeUrl url
   = (if Sanitizing.safeProtocols urlStr then urlStr else "https://" +:+ urlStr,
      [])).
Proof.
  cbv zeta. unfold Sanitizing.sanitizeUrl.
  destruct (Sanitizing.truthy_val url); cbn [negb].
  2: { split_and!; try done. by left. }
  destruct (Sanitizing.dangerousProtocols (trim (String_ url))) eqn:Hd.
  { split_and!; try done. by left. }
  destruct (Sanitizing.safeProtocols (trim (String_ url))) eqn:Hs; cbn [fst].
  - split_and!; try done. by right.
  - split_and!; try done. by right.
Qed.

Lemma sanitizeUrl_safe_witness :
  Sanitizing.sanitizeUrl (VStr "  JavaScript:alert(1)")
  = ("", [Sanitizing.BlockedProtocol "JavaScript:alert(1)"]) /\
  Sanitizing.sanitizeUrl (VStr "example.com ") = ("https://example.com", []).
Proof.
  pose proof (sanitizeUrl_safe (VStr "  JavaScript:alert(1)")) as (_ & _ & _ & H1 & _).
  pose proof (sanitizeUrl_safe (VStr "example.com ")) as (_ & _ & _ & _ & H2).
  split; [by apply H1 | by apply H2].
Defined.

(** X12. [sanitizeUrl] is idempotent: sanitizing a result again returns it
    unchanged, and without a warning. *)
Theorem sanitizeUrl_idempotent (url : jsval) :
  Sanitizing.sanitizeUrl (VStr (fst (Sanitizing.sanitizeUrl url)))
  = (fst (Sanitizing.sanitizeUrl url), []).
Proof.
  unfold Sanitizing.sanitizeUrl at 2 3.
  destruct (Sanitizing.truthy_val url); cbn [negb fst]; [|done].
  destruct (Sanitizing.dangerousProtocols (trim (String_ url))) eqn:Hd;
    cbn [fst]; [done|].
  destruct (Sanitizing.safeProtocols (trim (String_ url))) eqn:Hs; cbn [fst].
  - unfold Sanitizing.sanitizeUrl. cbn [String_ Sanitizing.truthy_val].
    assert (String.eqb (trim (String_ url)) "" = false) as ->.
    { by destruct (trim (String_ url)). }
    cbn [negb]. by rewrite trim_idem, Hd, Hs.
  - unfold Sanitizing.sanitizeUrl. cbn [String_ Sanitizing.truthy_val].
    rewrite trim_https. reflexivity.
Qed.

Section urls.

Lemma sanitizeUrl_scheme (url : jsval) :
  fst (Sanitizing.sanitizeUrl url) = "" \/
  Sanitizing.safeProtocols (fst (Sanitizing.sanitizeUrl url)) = true.
Proof.
  unfold Sanitizing.sanitizeUrl.
  destruct (Sanitizing.truthy_val url); cbn [negb]; [|by left].
  destruct (Sanitizing.dangerousProtocols (trim (String_ url))); [by left|].
  destruct (Sanitizing.safeProtocols (trim (String_ url))) eqn:Hs; by right.
Qed.

Lemma sanitizeUrl_not_dangerous (url : jsval) :
  Sanitizing.dangerousProtocols (fst (Sanitizing.sanitizeUrl url)) = false.
Proof.
  unfold Sanitizing.sanitizeUrl.
  destruct (Sanitizing.truthy_val url); cbn [negb]; [|done].
  destruct (Sanitizing.dangerousProtocols (trim (String_ url))) eqn:Hd; [done|].
  by destruct (Sanitizing.safeProtocols (trim (String_ url))).
Qed.

Lemma slice_to_length {A} (n : Z) (l : list A) :
  length (Sanitizing.slice_to n l) <= length l /\
  ((0 <= n)%Z -> length (Sanitizing.slice_to n l) <= Z.to_nat n).
Proof.
  unfold Sanitizing.slice_to. destruct (n <? 0)%Z eqn:Hn.
  - rewrite length_firstn. split; [lia|]. apply Z.ltb_lt in Hn. lia.
  - rewrite length_firstn. lia.
Qed.

Lemma slice_to_In {A} (n : Z) (l : list A) (x : A) :
  In x (Sanitizing.slice_to n l) -> In x l.
Proof.
  assert (forall k, In x (firstn k l) -> In x l) as H.
  { intros k Hx. rewrite <- (firstn_skipn k l). apply in_or_app. by left. }
  unfold Sanitizing.slice_to. destruct (n <? 0)%Z; apply H.
Qed.

Lemma filter_length_le {A} (f : A -> bool) (l : list A) :
  length (List.filter f l) <= length l.
Proof. induction l as [|x l IH]; simpl; [done|]. destruct (f x); simpl; lia. Qed.

End urls.

(** X13. [sanitizePhotoArray] returns only usable URLs: every one of them
    is non-empty, is the sanitized form of one of the photos given, starts
    with a safe protocol and with no dangerous one.  It returns at most as
    many as it was given and, for a count that is not negative, at most
    that many (ten when the count is left out).  An argument that is not an
    array gives the empty array. *)
Theorem sanitizePhotoArray_safe (photos : list jsval) (maxCount : option Z) :
  let urls := fst (Sanitizing.sanitizePhotoArray (Some photos) maxCount) in
  Forall
    (fun r =>
       r <> "" /\
       (exists p, In p photos /\ r = fst (Sanitizing.sanitizeUrl p)) /\
       Sanitizing.safeProtocols r = true /\
       Sanitizing.dangerousProtocols r = false) urls /\
  length urls <= length photos /\
  ((0 <= default 10 maxCount)%Z -> length urls <= Z.to_nat (default 10%Z maxCount)) /\
  Sanitizing.sanitizePhotoArray None maxCount = ([], []).
Proof.
  cbv zeta. unfold Sanitizing.sanitizePhotoArray. cbn [fst].
  set (n := default 10%Z maxCount).
  split_and!; [| | |done].
  - apply Forall_forall. intros r Hr.
    apply list_elem_of_In, filter_In in Hr as [Hr Hne].
    apply negb_true_iff, String.eqb_neq in Hne.
    rewrite map_map in Hr. apply in_map_iff in Hr as (p & <- & Hp).
    split_and!; [done | | | apply sanitizeUrl_not_dangerous].
    + exists p. split; [by eapply slice_to_In | done].
    + by destruct (sanitizeUrl_scheme p).
  - etrans; [apply filter_length_le|]. rewrite !length_map.
    apply slice_to_length.
  - intros Hn. etrans; [apply filter_length_le|]. rewrite !length_map.
    by apply slice_to_length.
Qed.

Lemma sanitizePhotoArray_safe_witness :
  fst (Sanitizing.sanitizePhotoArray
         (Some [VStr "a.jpg"; VStr "data:x"; VNull; VStr "http://b/c.png"; VStr "d"])
         (Some 4%Z))
  = ["https://a.jpg"; "http://b/c.png"] /\
  length
    (fst (Sanitizing.sanitizePhotoArray
            (Some [VStr "a.jpg"; VStr "data:x"; VNull; VStr "http://b/c.png"; VStr "d"])
            (Some 4%Z))) <= 4.
Proof.
  split; [reflexivity|].
  apply (proj1 (proj2 (proj2 (sanitizePhotoArray_safe
           [VStr "a.jpg"; VStr "data:x"; VNull; VStr "http://b/c.png"; VStr "d"]
           (Some 4%Z))))).
  simpl. lia.
Defined.

(** X14. What [validateSafeString] returns has passed every check and
    passes them again.  A returned string is trimmed, contains no tag, no
    [javascript:] and no [<script] in whatever case, is left alone by
    [stripHtmlTags] and validates to itself.  For a truthy value it is the
    trimmed string form of the value and no longer than the limit (500
    when the limit is left out); for a falsy value it is the empty
    string. *)
Theorem validateSafeString_checked
    (str : jsval) (maxLength : option Z) (r : string) :
  Sanitizing.validateSafeString str maxLength = Ok r ->
  trim r = r /\
  Sanitizing.has_tag r = false /\
  Sanitizing.contains_ci "javascript:" r = false /\
  Sanitizing.contains_ci "<script" r = false /\
  Sanitizing.stripHtmlTags (VStr r) = r /\
  Sanitizing.validateSafeString (VStr r) maxLength = Ok r /\
  (Sanitizing.truthy_val str = true ->
     r = trim (String_ str) /\
     (Z.of_nat (String.length r) <= default 500 maxLength)%Z) /\
  (Sanitizing.truthy_val str = false -> r = "").
Proof.
  unfold Sanitizing.validateSafeString at 1.
  destruct (Sanitizing.truthy_val str); cbn [negb].
  2: { intros [= <-]. by split_and!. }
  destruct (default 500 maxLength <? _)%Z eqn:Hlen; [done|].
  destruct (Sanitizing.has_tag (trim (String_ str))) eqn:Htag; [done|].
  destruct (Sanitizing.contains_ci "javascript:" (trim (String_ str))) eqn:Hjs;
    [done|].
  destruct (Sanitizing.contains_ci "<script" (trim (String_ str))) eqn:Hsc;
    [done|].
  cbn [orb]. intros [= <-]. split_and!; try done.
  - apply trim_idem.
  - rewrite stripHtmlTags_str. by apply remove_tags_id.
  - unfold Sanitizing.validateSafeString. cbn [String_ Sanitizing.truthy_val].
    destruct (String.eqb (trim (String_ str)) "") eqn:He.
    + apply String.eqb_eq in He. by rewrite He.
    + cbn [negb]. by rewrite trim_idem, Hlen, Htag, Hjs, Hsc.
  - intros _. split; [done|]. by apply Z.ltb_ge in Hlen.
Qed.

Lemma validateSafeString_checked_witness :
  Sanitizing.validateSafeString (VStr "  Silk & Thread  ") None = Ok "Silk & Thread" /\
  Sanitizing.validateSafeString (VStr "Silk & Thread") None = Ok "Silk & Thread".
Proof.
  assert (Sanitizing.validateSafeString (VStr "  Silk & Thread  ") None
          = Ok "Silk & Thread") as H by reflexivity.
  split; [exact H|].
  apply (proj1 (proj2 (proj2 (proj2 (proj2 (proj2
           (validateSafeString_checked _ _ _ H))))))).
Defined.

(** * Invariants of the worlds the application reaches *)

Section reachability.
Implicit Types (u : user) (w : world) (d : saved_data) (m : mutation).

Lemma mutate_no_duplicates m d d' :
  mutate m d = Ok (Some d') -> no_duplicates d -> no_duplicates d'.
Proof.
  intros Hm [Hi Hc]. split; [by eapply mutate_distinct|].
  destruct m as [p|p|en name|c|c p|c p]; cbn [mutate] in Hm.
  - by injection Hm as <-.
  - injection Hm as <-. cbn [collections].
    apply Forall_forall. intros kc Hkc.
    apply list_elem_of_In, in_map_iff in Hkc as (kc0 & <- & Hin).
    cbn [remove_from snd placeIds]. apply distinct_filter_ne.
    rewrite Forall_forall in Hc. by apply Hc, list_elem_of_In.
  - destruct name as [| |b|n|s]; try discriminate.
    destruct (String.eqb (trim s) ""); [discriminate|].
    injection Hm as <-. by apply obj_set_Forall.
  - injection Hm as <-. by apply obj_delete_Forall.
  - destruct (obj_lookup (collections d) (String_ c)) as [[col|name]|] eqn:Hg;
      [| |discriminate]; injection Hm as <-; [|done].
    apply obj_set_Forall; [done|].
    apply set_add_distinct, new_Set_distinct.
  - destruct (obj_lookup (collections d) (String_ c)) as [[col|name]|] eqn:Hg;
      [| |discriminate]; injection Hm as <-; [|done].
    apply obj_set_Forall; [done|].
    cbn [snd placeIds]. apply distinct_filter_ne.
    apply obj_lookup_Own, obj_get_elem_of in Hg.
    rewrite Forall_forall in Hc. apply (Hc _ Hg).
Qed.

End reachability.

(** X15. The saved layer keeps its lists free of duplicates.  In every
    world the application reaches from a missing saved store, no user's
    items hold the same value twice, and neither do the place ids of any of
    the user's collections. *)
Theorem reachable_no_duplicates (w : world) (u : user) (d : saved_data) :
  reachable w -> entry_of w u = Ok d -> no_duplicates d.
Proof.
  intros Hr E.
  refine (reachable_invariant no_duplicates _ _ w Hr u d E).
  - split; [done | constructor].
  - intros m d0 d' _. apply mutate_no_duplicates.
Qed.

Lemma reachable_no_duplicates_witness :
  no_duplicates
    {| items := [JStr "p5"];
       collections := [] |}.
Proof.
  apply (reachable_no_duplicates
           (snd (run_mutation (SavePlace (VStr "p5")) (Some alice)
                   (snd (run_mutation (SavePlace (VStr "p5")) (Some alice)
                           no_storage)))) alice).
  - do 2 apply reachable_step. by apply reachable_start.
  - reflexivity.
Defined.

(** X16. On a store that the application itself produced nothing fails on
    malformed data.  In every reachable world, for a logged-in user, the
    five reading operations return; saving and unsaving a place, deleting
    a collection and removing a place from a collection never throw;
    [createCollection] throws only for a name that is missing, blank or no
    string; and [addPlaceToCollection] throws only the error "Collection
    not found.". *)
Theorem reachable_never_malformed
    (w : world) (u : user) (m : mutation) (collectionId placeId : jsval) :
  reachable w ->
  (exists d,
     Local.getSavedPlaceIds (Some u) w = (Ok (items d), w) /\
     Local.getCollections (Some u) w = (Ok (Object_values (collections d)), w) /\
     (exists b, Local.isPlaceSaved (Some u) placeId w = (Ok b, w)) /\
     (exists ids, Local.getCollectionPlaceIds (Some u) collectionId w = (Ok ids, w)) /\
     (exists b, Local.isPlaceInCollection (Some u) collectionId placeId w
                = (Ok b, w))) /\
  (forall e, fst (run_mutation m (Some u) w) = Some e ->
     match m with
     | CreateCollection _ name =>
         match name with
         | VStr s => trim s = "" /\ e = Error "Collection name is required."
         | VUndefined | VNull => e = Error "Collection name is required."
         | VBool _ | VNum _ => e = TypeError
         end
     | AddPlaceToCollection _ _ => e = Error "Collection not found."
     | _ => False
     end).
Proof.
  intros Hr. destruct (reachable_entries w Hr u) as (d & E & _ & _). split.
  - exists d. split_and!.
    + by apply getSavedPlaceIds_run.
    + by apply getCollections_run.
    + eexists. by apply isPlaceSaved_run.
    + eexists. by apply getCollectionPlaceIds_run.
    + eexists. by apply isPlaceInCollection_run.
  - intros e. rewrite (run_mutation_mutate _ _ _ _ E).
    destruct m as [p|p|en name|c|c p|c p]; cbn [mutate fst]; try done.
    + destruct name as [| |b|n|s]; cbn [fst]; try by intros [= <-].
      destruct (String.eqb (trim s) "") eqn:Hs; cbn [fst]; [|done].
      intros [= <-]. by apply String.eqb_eq in Hs.
    + destruct (obj_lookup (collections d) (String_ c)); cbn [fst]; [done|].
      by intros [= <-].
    + by destruct (obj_lookup (collections d) (String_ c)) as [[col|name]|].
Qed.

Lemma reachable_never_malformed_witness :
  exists d,
    Local.getSavedPlaceIds (Some alice)
      (snd (run_mutation (SavePlace (VNum 3)) (Some alice) no_storage))
    = (Ok (items d),
       snd (run_mutation (SavePlace (VNum 3)) (Some alice) no_storage)) /\
    items d = [JStr "3"].
Proof.
  destruct (proj1 (reachable_never_malformed
                     (snd (run_mutation (SavePlace (VNum 3)) (Some alice) no_storage))
                     alice (SavePlace (VNum 3)) VNull VNull
                     (reachable_step _ _ _ (reachable_start no_storage eq_refl))))
    as (d & Hitems & _).
  exists d. split; [done|].
  vm_compute in Hitems. injection Hitems as Hitems. symmetry. exact Hitems.
Defined.

Section repeating.
Implicit Types (u : user) (w : world) (d : saved_data) (m : mutation).





End repeating.


(** X18. The self test of the sanitizer module passes: [__testSanitizer]
    reports five passed tests and none failed, the result of each test
    being the value the test expects, and it logs one warning for each of
    the two URLs that it has blocked. *)
Theorem testSanitizer_passes :
  SanitizerTest.passed (fst SanitizerTest.__testSanitizer) = 5 /\
  SanitizerTest.failed (fst SanitizerTest.__testSanitizer) = 0 /\
  Forall
    (fun tb =>
       snd tb = true /\
       SanitizerTest.result (fst tb) = SanitizerTest.expected (fst tb))
    (SanitizerTest.tests (fst SanitizerTest.__testSanitizer)) /\
  List.map fst (SanitizerTest.tests (fst SanitizerTest.__testSanitizer))
    = fst SanitizerTest.the_tests /\
  snd SanitizerTest.__testSanitizer
  = [Sanitizing.BlockedProtocol
       ("javascript:alert(" +:+ SanitizerTest.quoted "XSS" +:+ ")");
     Sanitizing.BlockedProtocol
       ("data:text/html," +:+ SanitizerTest.xss_script)].
Proof.
  split_and!; try (vm_compute; reflexivity).
  vm_compute. repeat constructor.
Qed.

(** X19. [createSafeLink] never builds a link to a dangerous URL, and a
    link that opens a new tab cannot reach its opener.  The [href] it sets
    is [#], together with a click listener that blocks the click, or a URL
    that starts with a safe protocol and with no dangerous one.  It sets
    [target] to [_blank] exactly when it sets [rel] to [noopener
    noreferrer], which is when the URL starts with [http://] or [https://]
    in lower case; otherwise it sets neither.  The text is set as given. *)
Theorem createSafeLink_safe (href : jsval) (textContent className : string) :
  let l := fst (Sanitizing.createSafeLink href textContent className) in
  ((Sanitizing.link_href l = "#" /\ Sanitizing.link_blocks_click l = true /\
    Sanitizing.link_target l = None /\ Sanitizing.link_rel l = None) \/
   (Sanitizing.link_href l = fst (Sanitizing.sanitizeUrl href) /\
    Sanitizing.safeProtocols (Sanitizing.link_href l) = true /\
    Sanitizing.link_blocks_click l = false)) /\
  Sanitizing.dangerousProtocols (Sanitizing.link_href l) = false /\
  ((Sanitizing.link_target l = Some "_blank" /\
    Sanitizing.link_rel l = Some "noopener noreferrer" /\
    (String.prefix "http://" (Sanitizing.link_href l)
     || String.prefix "https://" (Sanitizing.link_href l)) = true) \/
   (Sanitizing.link_target l = None /\ Sanitizing.link_rel l = None /\
    (String.prefix "http://" (Sanitizing.link_href l)
     || String.prefix "https://" (Sanitizing.link_href l)) = false)) /\
  Sanitizing.link_textContent l = textContent.
Proof.
  cbv zeta. unfold Sanitizing.createSafeLink. cbn [fst].
  pose proof (sanitizeUrl_scheme href) as Hs.
  pose proof (sanitizeUrl_not_dangerous href) as Hd.
  destruct (String.eqb (fst (Sanitizing.sanitizeUrl href)) "") eqn:He.
  - cbn. split_and!; try done; [left | right]; by split_and!.
  - apply String.eqb_neq in He. destruct Hs as [Hs|Hs]; [done|].
    cbn [negb andb Sanitizing.link_href Sanitizing.link_target
           Sanitizing.link_rel Sanitizing.link_blocks_click
           Sanitizing.link_textContent].
    split_and!; try done; [by right|].
    destruct (String.prefix "http://" (fst (Sanitizing.sanitizeUrl href))
              || String.prefix "https://" (fst (Sanitizing.sanitizeUrl href)));
      [left | right]; by split_and!.
Qed.

(** X20. [createSafeImage] never loads a blocked URL.  The [src] it sets is
    the fixed placeholder, with a warning logged last, when [sanitizeUrl]
    returned the empty string, and otherwise the sanitized URL, which
    starts with a safe protocol and with no dangerous one.  It always sets
    the referrer policy [no-referrer]. *)
Theorem createSafeImage_safe (src : jsval) (alt className : string) :
  let r := Sanitizing.createSafeImage src alt className in
  ((fst (Sanitizing.sanitizeUrl src) = "" /\
    Sanitizing.img_src (fst r) = Sanitizing.placeholder /\
    snd r = snd (Sanitizing.sanitizeUrl src) ++ [Sanitizing.BlockedImage]) \/
   (Sanitizing.img_src (fst r) = fst (Sanitizing.sanitizeUrl src) /\
    Sanitizing.safeProtocols (Sanitizing.img_src (fst r)) = true /\
    Sanitizing.dangerousProtocols (Sanitizing.img_src (fst r)) = false /\
    snd r = snd (Sanitizing.sanitizeUrl src))) /\
  Sanitizing.img_referrerpolicy (fst r) = "no-referrer" /\
  Sanitizing.img_alt (fst r) = alt.
Proof.
  cbv zeta. unfold Sanitizing.createSafeImage. cbn [fst snd].
  pose proof (sanitizeUrl_scheme src) as Hs.
  pose proof (sanitizeUrl_not_dangerous src) as Hd.
  destruct (String.eqb (fst (Sanitizing.sanitizeUrl src)) "") eqn:He.
  - apply String.eqb_eq in He. split_and!; try done. by left.
  - apply String.eqb_neq in He. destruct Hs as [Hs|Hs]; [done|].
    cbn [Sanitizing.img_src]. split_and!; try done.
    right. split_and!; try done. by rewrite app_nil_r.
Qed.
